(** * soluautomaatti: a toroidal Game of Life board

    A shallow embedding of [soluautomaatti.py] and the proofs of its
    specification.  The Python program keeps its boards in numpy arrays that
    live on the heap and are reached through references: [copy.copy] makes a
    new array, [temp_board[y, x] = v] writes into the array [temp_board]
    points to, and [self.board = temp_board] only rebinds an attribute.  The
    embedding keeps that picture: a store of arrays indexed by address, a
    [GameBoard] record of addresses, and a state-and-error monad in which the
    methods are written statement by statement.  The [while] loops of
    [shift_positions] do not stop on a board without columns, so every method
    that reaches them takes the number of turns the loops may take; the
    theorems say how many are enough. *)

From Stdlib Require Import ZArith Lia Strings.Ascii.
From stdpp Require Import base option list gmap strings.

Open Scope Z_scope.

(** ** Results of running Python code *)

(** The exceptions the modelled code can raise.  [InvalidRef] stands for the
    use of an address that holds no array; Python never produces one, so it
    only shows up from states that are not well formed. *)
Inductive exn : Type :=
  | IndexError
  | ValueError
  | FileNotFoundError
  | InvalidRef.

(** A run either returns, raises, or is still inside a [while] loop when the
    iteration budget is used up. *)
Inductive result (A : Type) : Type :=
  | Ok (a : A)
  | Raise (e : exn)
  | OutOfFuel.
Arguments Ok {A} a.
Arguments Raise {A} e.
Arguments OutOfFuel {A}.

(** ** numpy arrays as values *)

Module Numpy.

(** A two-dimensional array, row by row.  numpy arrays are rectangular;
    [shape] says so. *)
Abbreviation ndarray := (list (list Z)).

Definition shape (a : ndarray) (rows cols : nat) : Prop :=
  length a = rows ∧ Forall (λ row, length row = cols) a.

Definition rectangular (a : ndarray) : Prop :=
  ∃ cols, Forall (λ row : list Z, length row = cols) a.

(** Every cell is 0 (dead) or 1 (alive). *)
Abbreviation binary_row := (Forall (λ c : Z, c = 0 ∨ c = 1)).

Definition binary (a : ndarray) : Prop := Forall binary_row a.

(** numpy's index rule along one axis of length [n]: [0 <= i < n] is the
    position [i], [-n <= i < 0] counts from the end, anything else is an
    [IndexError]. *)
Definition index (n : nat) (i : Z) : option nat :=
  if (0 <=? i) && (i <? Z.of_nat n) then Some (Z.to_nat i)
  else if (- Z.of_nat n <=? i) && (i <? 0) then Some (Z.to_nat (i + Z.of_nat n))
  else None.

(** [a[j, i]] *)
Definition getitem (a : ndarray) (j i : Z) : result Z :=
  match index (length a) j with
  | None => Raise IndexError
  | Some r =>
      match a !! r with
      | None => Raise IndexError
      | Some row =>
          match index (length row) i with
          | None => Raise IndexError
          | Some c =>
              match row !! c with
              | None => Raise IndexError
              | Some v => Ok v
              end
          end
      end
  end.

(** [a[j, i] = v], as the array it leaves behind. *)
Definition setitem (a : ndarray) (j i : Z) (v : Z) : result ndarray :=
  match index (length a) j with
  | None => Raise IndexError
  | Some r =>
      match a !! r with
      | None => Raise IndexError
      | Some row =>
          match index (length row) i with
          | None => Raise IndexError
          | Some c => Ok (<[r := <[c := v]> row]> a)
          end
      end
  end.

(** [len(a)] *)
Definition len (a : ndarray) : Z := Z.of_nat (length a).

(** The number of columns and of rows, and the cell in column [x] of row
    [y] for coordinates inside the array. *)
Definition width (a : ndarray) : Z := Z.of_nat (length (default [] (head a))).
Definition height (a : ndarray) : Z := Z.of_nat (length a).
Definition cell (a : ndarray) (x y : Z) : Z :=
  default 0 (a !! Z.to_nat y ≫= (.!! Z.to_nat x)).

(** [len(a[0])] *)
Definition len_row0 (a : ndarray) : result Z :=
  match a with
  | [] => Raise IndexError
  | row :: _ => Ok (Z.of_nat (length row))
  end.

(** [np.zeros((rows, cols))]; a negative dimension is a [ValueError]. *)
Definition zeros (rows cols : Z) : result ndarray :=
  if (rows <? 0) || (cols <? 0) then Raise ValueError
  else Ok (replicate (Z.to_nat rows) (replicate (Z.to_nat cols) 0)).

(** [np.array(rows)] for a list of lists of integers: rows of one length
    give a two-dimensional array, rows of different lengths are refused
    (numpy 1.24 and later).  An [ndarray] here is a grid of integers and
    nothing more, so the value returned is numpy's only where numpy makes
    an integer array with two dimensions: at least one row, at least one
    number in a row, and every number within a 64-bit integer.  Outside
    this range numpy answers otherwise (no rows give an array of shape
    [(0,)], numbers that fit no integer type are rounded to floats), and
    the theorems that use the returned rows say so in their hypotheses. *)
Definition array (rows : list (list Z)) : result ndarray :=
  match rows with
  | [] => Ok []
  | r :: rest =>
      if forallb (λ r', Nat.eqb (length r') (length r)) rest
      then Ok rows else Raise ValueError
  end.

End Numpy.
Import Numpy.

(** ** The heap, the object and the monad *)

Definition loc : Type := nat.

(** The attributes of a [GameBoard] object; each board is the address of an
    array. *)
Record GameBoard : Type := mkGameBoard {
  history : list loc;
  board : loc;
  initial_board : loc
}.

(** The world the program runs in: the arrays on the heap, the text files on
    disk by name, the numbers the random generator is going to produce with
    the count of those already drawn, and the object [self]. *)
Record world : Type := mkWorld {
  arrays : list ndarray;
  files : gmap string string;
  entropy : nat → Z;
  drawn : nat;
  self : GameBoard
}.

Definition set_arrays (h : list ndarray) (st : world) : world :=
  mkWorld h (files st) (entropy st) (drawn st) (self st).
Definition set_files (fs : gmap string string) (st : world) : world :=
  mkWorld (arrays st) fs (entropy st) (drawn st) (self st).
Definition set_drawn (n : nat) (st : world) : world :=
  mkWorld (arrays st) (files st) (entropy st) n (self st).
Definition set_self (o : GameBoard) (st : world) : world :=
  mkWorld (arrays st) (files st) (entropy st) (drawn st) o.

Definition M (A : Type) : Type := world → result (A * world).

#[global] Instance M_ret : MRet M := λ A a st, Ok (a, st).
#[global] Instance M_bind : MBind M := λ A B f m st,
  match m st with
  | Ok (a, st') => f a st'
  | Raise e => Raise e
  | OutOfFuel => OutOfFuel
  end.

Definition lift {A} (r : result A) : M A := λ st,
  match r with
  | Ok a => Ok (a, st)
  | Raise e => Raise e
  | OutOfFuel => OutOfFuel
  end.
Definition gets {A} (f : world → A) : M A := λ st, Ok (f st, st).
Definition modify (f : world → world) : M unit := λ st, Ok (tt, f st).

(** [for a in l: body(a)] *)
Fixpoint for_in {A} (l : list A) (body : A → M unit) : M unit :=
  match l with
  | [] => mret tt
  | a :: l' => body a ;; for_in l' body
  end.

(** [range(n)] *)
Definition range (n : Z) : list Z := seqZ 0 n.

(** [while cond(x): x = body(x)], at most [fuel] times round the loop. *)
Fixpoint while (fuel : nat) (cond : Z → bool) (body : Z → Z) (x : Z) : result Z :=
  if cond x then
    match fuel with
    | O => OutOfFuel
    | S fuel' => while fuel' cond body (body x)
    end
  else Ok x.

(** Reading and writing arrays through their addresses. *)
Definition load (l : loc) : M ndarray := λ st,
  match arrays st !! l with
  | Some a => Ok (a, st)
  | None => Raise InvalidRef
  end.

Definition alloc (a : ndarray) : M loc := λ st,
  Ok (length (arrays st), set_arrays (arrays st ++ [a]) st).

Definition store (l : loc) (a : ndarray) : M unit := λ st,
  match arrays st !! l with
  | Some _ => Ok (tt, set_arrays (<[l := a]> (arrays st)) st)
  | None => Raise InvalidRef
  end.

(** [copy.copy(a)] of an array: a new array with the same contents. *)
Definition copy (l : loc) : M loc :=
  a ← load l; alloc a.

(** [a[j, i]] and [a[j, i] = v] on the array at an address. *)
Definition getitem_at (l : loc) (j i : Z) : M Z :=
  a ← load l; lift (getitem a j i).

Definition setitem_at (l : loc) (j i : Z) (v : Z) : M unit :=
  a ← load l; a' ← lift (setitem a j i v); store l a'.

(** [rng.random()]: the next number of the generator, as the numerator [k]
    of the double [k / 2^53] numpy returns. *)
Definition rng_random : M Z := λ st,
  Ok (entropy st (drawn st), set_drawn (S (drawn st)) st).

(** [rand <= spawn_chance] for [spawn_chance = 0.2]: the double nearest to
    0.2 is [3602879701896397 / 2^54], so [k / 2^53] is at most it exactly
    when [2 * k <= 3602879701896397]. *)
Definition le_spawn_chance (k : Z) : bool := 2 * k <=? 3602879701896397.

(** ** The class [GameBoard] *)

(** Attribute access on [self]. *)
Definition self_board : M loc := gets (λ st, board (self st)).
Definition set_history (h : list loc) : M unit :=
  modify (λ st, set_self (mkGameBoard h (board (self st)) (initial_board (self st))) st).
Definition set_board (b : loc) : M unit :=
  modify (λ st, set_self (mkGameBoard (history (self st)) b (initial_board (self st))) st).
Definition set_initial_board (b : loc) : M unit :=
  modify (λ st, set_self (mkGameBoard (history (self st)) (board (self st)) b) st).

(** [len(self.board)], [len(self.board[0])] and [self.board[j, i]] *)
Definition board_len : M Z :=
  b ← self_board; a ← load b; mret (len a).
Definition board_len_row0 : M Z :=
  b ← self_board; a ← load b; lift (len_row0 a).
Definition board_getitem (j i : Z) : M Z :=
  b ← self_board; getitem_at b j i.

(** [len(l)] on a Python list. *)
Definition len_list {A} (l : list A) : Z := Z.of_nat (length l).

(** [for a in l: acc = body(a, acc)], for loops that update a local
    variable. *)
Fixpoint for_acc {A B} (l : list A) (acc : B) (body : A → B → M B) : M B :=
  match l with
  | [] => mret acc
  | a :: l' => acc' ← body a acc; for_acc l' acc' body
  end.

(** [get_size]: the list [[len(self.board[0]), len(self.board)]], as a pair. *)
Definition get_size : M (Z * Z) :=
  x_len ← board_len_row0;
  y_len ← board_len;
  mret (x_len, y_len).

(** [shift_positions] *)
Definition shift_positions (fuel : nat) (x y : Z) : M (Z * Z) :=
  x_len ← (sz ← get_size; mret (fst sz));
  y_len ← (sz ← get_size; mret (snd sz));
  x ← lift (while fuel (λ x, x <? 0) (λ x, x + x_len) x);
  x ← lift (while fuel (λ x, x_len <=? x) (λ x, x - x_len) x);
  y ← lift (while fuel (λ y, y <? 0) (λ y, y + y_len) y);
  y ← lift (while fuel (λ y, y_len <=? y) (λ y, y - y_len) y);
  mret (x, y).

(** [make_random_board]; [size] is the list [[size[0], size[1]]]. *)
Definition make_random_board (size : Z * Z) : M loc :=
  a ← lift (zeros (fst size) (snd size));
  board ← alloc a;
  n_rows ← (a ← load board; mret (len a));
  for_in (range n_rows) (λ row,
    n_cols ← (a ← load board; lift (len_row0 a));
    for_in (range n_cols) (λ col,
      rand ← rng_random;
      if le_spawn_chance rand then setitem_at board row col 1 else mret tt));;
  mret board.

(** [__init__] *)
Definition init (size : Z * Z) (board : option loc) : M unit :=
  set_history [];;
  match board with
  | Some b => set_board b
  | None => b ← make_random_board size; set_board b
  end;;
  c ← (b ← self_board; copy b);
  set_initial_board c.

Definition get_board : M loc := self_board.
Definition get_initial_board : M loc := gets (λ st, initial_board (self st)).
Definition get_animation : M (list loc) := gets (λ st, history (self st)).

(** [get_neighbors] *)
Definition get_neighbors (fuel : nat) (x y : Z) : M Z :=
  n_neighbors ←
    for_acc [x - 1; x; x + 1] 0 (λ i n_neighbors,
      for_acc [y - 1; y; y + 1] n_neighbors (λ j n_neighbors,
        '(new_i, new_j) ← shift_positions fuel i j;
        c ← board_getitem new_j new_i;
        if c =? 1 then mret (n_neighbors + 1) else mret n_neighbors));
  c ← board_getitem y x;
  if c =? 1 then mret (n_neighbors - 1) else mret n_neighbors.

(** [update_cell] *)
Definition update_cell (fuel : nat) (x y : Z) : M Z :=
  n_neighbors ← get_neighbors fuel x y;
  c ← board_getitem y x;
  if c =? 0 then
    if n_neighbors =? 3 then mret 1 else board_getitem y x
  else
    if (n_neighbors <? 2) || (3 <? n_neighbors) then mret 0 else board_getitem y x.

(** [tick] *)
Definition tick (fuel : nat) : M unit :=
  snapshot ← (b ← self_board; copy b);
  h ← get_animation;
  set_history (h ++ [snapshot]);;
  temp_board ← (b ← self_board; copy b);
  n_rows ← board_len;
  for_in (range n_rows) (λ y,
    n_cols ← board_len_row0;
    for_in (range n_cols) (λ x,
      v ← update_cell fuel x y;
      setitem_at temp_board y x v));;
  set_board temp_board.

(** [l[i]] on a Python list: the index rule is that of numpy along one
    axis. *)
Definition list_getitem {A} (l : list A) (i : Z) : result A :=
  match index (length l) i with
  | None => Raise IndexError
  | Some n =>
      match l !! n with
      | Some a => Ok a
      | None => Raise IndexError
      end
  end.

(** [animate] as far as the board goes: the start delay puts the first
    frame in front of the history once per frame of delay, and the length of
    the history is the number of frames handed to matplotlib, which is what
    comes back here.  The drawing itself is matplotlib's. *)
Definition animate_frames (start_delay : option Z) : M Z :=
  match start_delay with
  | Some d =>
      for_in (range d) (λ _,
        h ← get_animation;
        first ← lift (list_getitem h 0);
        set_history ([first] ++ h))
  | None => mret tt
  end;;
  h ← get_animation;
  mret (len_list h).

(** [for i in range(k): gameBoard.tick()], the loop of [main]. *)
Fixpoint ticks (fuel : nat) (k : nat) : M unit :=
  match k with
  | O => mret tt
  | S k' => tick fuel;; ticks fuel k'
  end.

(** ** Board files *)

(** Python strings, for the part of them the program touches.  A character is
    a code point below 256. *)
Module Str.

Definition code (c : ascii) : Z := Z.of_nat (Ascii.nat_of_ascii c).

(** [str(n)] for an integer: decimal digits, a minus sign when negative. *)
Definition digit_char (d : Z) : ascii := Ascii.ascii_of_nat (Z.to_nat (48 + d)).

Fixpoint digits (fuel : nat) (n : Z) (acc : string) : string :=
  match fuel with
  | O => acc
  | S fuel' =>
      let acc' := String (digit_char (n mod 10)) acc in
      if n <? 10 then acc' else digits fuel' (n / 10) acc'
  end.

Definition str (n : Z) : string :=
  if n <? 0 then String "-"%char (digits (Z.to_nat (- n)) (- n) EmptyString)
  else digits (S (Z.to_nat n)) n EmptyString.

(** [c.isspace()] *)
Definition isspace (c : ascii) : bool :=
  let n := code c in
  ((9 <=? n) && (n <=? 13)) || ((28 <=? n) && (n <=? 32)) || (n =? 133) || (n =? 160).

(** [s.split()]: the maximal runs of characters that are not white space.
    [tok] is the run being read. *)
Fixpoint split_from (s : string) (tok : string) : list string :=
  match s with
  | EmptyString => if String.eqb tok EmptyString then [] else [tok]
  | String c s' =>
      if isspace c
      then (if String.eqb tok EmptyString then split_from s' EmptyString else tok :: split_from s' EmptyString)
      else split_from s' (tok +:+ String c EmptyString)
  end.

Definition split (s : string) : list string := split_from s EmptyString.

(** [int(s)] for a string without surrounding white space: an optional
    sign, then decimal digits, single underscores allowed between digits;
    anything else is a [ValueError].  [after_digit] says that the character
    just read was a digit. *)
Definition digit_value (c : ascii) : option Z :=
  let n := code c in
  if (48 <=? n) && (n <=? 57) then Some (n - 48) else None.

Fixpoint int_digits (s : string) (acc : Z) (after_digit : bool) : option Z :=
  match s with
  | EmptyString => if after_digit then Some acc else None
  | String c s' =>
      match digit_value c with
      | Some d => int_digits s' (10 * acc + d) true
      | None =>
          if Ascii.eqb c "_"%char && after_digit then int_digits s' acc false else None
      end
  end.

Definition int (s : string) : result Z :=
  let parsed :=
    match s with
    | String "-"%char s' => Z.opp <$> int_digits s' 0 false
    | String "+"%char s' => int_digits s' 0 false
    | _ => int_digits s 0 false
    end in
  match parsed with
  | Some n => Ok n
  | None => Raise ValueError
  end.

(** What a file opened in text mode hands to the reader: every line end,
    ["\r\n"] or ["\r"], becomes ["\n"]. *)
Fixpoint universal_newlines (s : string) : string :=
  match s with
  | EmptyString => EmptyString
  | String c s' =>
      if Ascii.eqb c "013"%char then
        String "010"%char
          match s' with
          | String c' s'' => if Ascii.eqb c' "010"%char then universal_newlines s''
                             else universal_newlines s'
          | EmptyString => EmptyString
          end
      else String c (universal_newlines s')
  end.

(** [readlines()]: the lines with their line ends, the last one as it is.
    [line] is the line being read. *)
Fixpoint lines_from (s : string) (line : string) : list string :=
  match s with
  | EmptyString => if String.eqb line EmptyString then [] else [line]
  | String c s' =>
      if Ascii.eqb c "010"%char then (line +:+ String c EmptyString) :: lines_from s' EmptyString
      else lines_from s' (line +:+ String c EmptyString)
  end.

Definition readlines (s : string) : list string :=
  lines_from (universal_newlines s) EmptyString.

End Str.

(** [[f(a) for a in l]] where [f] may raise. *)
Fixpoint comprehension {A B} (f : A → result B) (l : list A) : result (list B) :=
  match l with
  | [] => Ok []
  | a :: l' =>
      match f a with
      | Ok b =>
          match comprehension f l' with
          | Ok bs => Ok (b :: bs)
          | Raise e => Raise e
          | OutOfFuel => OutOfFuel
          end
      | Raise e => Raise e
      | OutOfFuel => OutOfFuel
      end
  end.

(** [open(filename, 'r')] followed by [readlines()], and [open(filename, 'w')]
    followed by [write(text)].  The line end of the platform is ["\n"]. *)
Definition file_readlines (filename : string) : M (list string) := λ st,
  match files st !! filename with
  | Some text => Ok (Str.readlines text, st)
  | None => Raise FileNotFoundError
  end.

Definition file_write (filename : string) (text : string) : M unit := λ st,
  Ok (tt, set_files (<[filename := text]> (files st)) st).

(** [read_board] *)
Definition read_board (filename : string) : M loc :=
  lines ← file_readlines filename;
  board ← for_acc lines [] (λ line board,
    let split := Str.split line in
    split ← lift (comprehension Str.int split);
    mret (board ++ [split]));
  a ← lift (array board);
  alloc a.

(** [save_board]; [int(board[y, x])] of a cell that holds an integer is the
    cell. *)
Definition save_board (board : loc) (filename : string) : M unit :=
  n_rows ← (a ← load board; mret (len a));
  board_txt ← for_acc (range n_rows) EmptyString (λ y board_txt,
    n_cols ← (a ← load board; lift (len_row0 a));
    board_txt ← for_acc (range n_cols) board_txt (λ x board_txt,
      c ← getitem_at board y x;
      mret ((board_txt +:+ Str.str c) +:+ " "));
    mret (board_txt +:+ String "010"%char EmptyString));
  file_write filename board_txt.

(** ** What the specification says *)

(** The operations of the Board Engine as the specification words them, on
    grid values.  They are compared with the code below. *)
Module Spec.

(** normalize: modulo with an always non-negative result. *)
Definition normalize (g : ndarray) (x y : Z) : Z * Z :=
  (x mod width g, y mod height g).

(** The 3x3 block around a cell minus its centre. *)
Definition moore : list (Z * Z) :=
  [(-1, -1); (-1, 0); (-1, 1); (0, -1); (0, 1); (1, -1); (1, 0); (1, 1)].

Definition alive (c : Z) : bool := c =? 1.

(** count_neighbors: the living cells among the eight positions, each
    normalized. *)
Definition count_neighbors (g : ndarray) (x y : Z) : Z :=
  Z.of_nat (length (filter (λ c, alive c = true)
    (map (λ d, let p := normalize g (x + fst d) (y + snd d) in cell g (fst p) (snd p))
         moore))).

(** next_state: B3/S23. *)
Definition next_state (g : ndarray) (x y : Z) : Z :=
  let n := count_neighbors g x y in
  if alive (cell g x y)
  then (if (n =? 2) || (n =? 3) then 1 else 0)
  else (if n =? 3 then 1 else 0).

(** The two-pass tick: first every next state from the old grid ... *)
Definition next_states (g : ndarray) : list (list Z) :=
  imap (λ y row, imap (λ x _, next_state g (Z.of_nat x) (Z.of_nat y)) row) g.

(** ... and only then installed, cell by cell. *)
Definition install (new : list (list Z)) (g : ndarray) : ndarray :=
  imap (λ y row, imap (λ x c, default c (new !! y ≫= (.!! x))) row) g.

Definition tick (g : ndarray) : ndarray := install (next_states g) g.

(** The update the specification rules out: one pass, left to right and
    top to bottom, that reads the grid it is writing. *)
Definition naive_tick (g : ndarray) : ndarray :=
  foldl (λ acc y,
    foldl (λ acc x,
      <[y := <[x := next_state acc (Z.of_nat x) (Z.of_nat y)]> (default [] (acc !! y))]> acc)
      acc (seq 0 (length (default [] (head g)))))
    g (seq 0 (length g)).

End Spec.

(** ** Sample boards *)

(** A horizontal blinker in the middle of a 5x5 board, and a world whose
    object has it as live grid. *)
Definition blinker5 : ndarray :=
  [[0;0;0;0;0]; [0;0;0;0;0]; [0;1;1;1;0]; [0;0;0;0;0]; [0;0;0;0;0]].

Definition world_of (g : ndarray) : world :=
  mkWorld [g] ∅ (λ _, 0) 0%nat (mkGameBoard [] 0%nat 0%nat).

(** The board [GameBoard(board=blinker5)] constructs there. *)
Definition fresh_blinker5 : world :=
  mkWorld [blinker5; blinker5] ∅ (λ _, 0) 0%nat (mkGameBoard [] 0%nat 1%nat).

(** A world with one file and nothing else, and a board file written with a
    tab, two spaces and a Windows line end. *)
Definition file_world (filename text : string) : world :=
  mkWorld [] {[filename := text]} (λ _, 0) 0%nat (mkGameBoard [] 0%nat 0%nat).


(** ** What the methods return on a given grid *)

(** The live grid of the object is [g]. *)
Definition board_is (st : world) (g : ndarray) : Prop :=
  arrays st !! board (self st) = Some g.

(** The cell [get_neighbors] reads for the position [(i, j)]. *)
Definition wrapped (g : ndarray) (i j : Z) : Z :=
  cell g (i mod width g) (j mod height g).

(** The value [get_neighbors] returns: the two loops, then the correction
    for the cell itself. *)
Definition neighbors_value (g : ndarray) (x y : Z) : Z :=
  let n := foldl (λ n i,
             foldl (λ n j, if wrapped g i j =? 1 then n + 1 else n) n [y - 1; y; y + 1])
             0 [x - 1; x; x + 1] in
  if cell g x y =? 1 then n - 1 else n.

(** The value [update_cell] returns. *)
Definition update_value (g : ndarray) (x y : Z) : Z :=
  let n := neighbors_value g x y in
  let c := cell g x y in
  if c =? 0 then (if n =? 3 then 1 else c)
  else (if (n <? 2) || (3 <? n) then 0 else c).

(** The grid [tick] installs. *)
Definition next_board (g : ndarray) : ndarray :=
  imap (λ y row, imap (λ x _, update_value g (Z.of_nat x) (Z.of_nat y)) row) g.

(** An array in the middle of a row-by-row pass that writes [f i j] into
    column [i] of row [j]: the rows before [y] and the first [x] cells of row
    [y] are written, the rest is as it was. *)
Definition partial_fill (f : nat → nat → Z) (g : ndarray) (y x : nat) : ndarray :=
  imap (λ j row,
    imap (λ i c, if decide (j < y ∨ (j = y ∧ i < x))%nat then f i j else c) row) g.

(** The array [temp_board] holds inside [tick] at that point. *)
Definition partial_board (g : ndarray) (y x : nat) : ndarray :=
  partial_fill (λ i j, update_value g (Z.of_nat i) (Z.of_nat j)) g y x.

(** The cell [make_random_board] gives column [i] of row [j] of a board with
    [cols] columns when [d] numbers were drawn before. *)
Definition random_cell (e : nat → Z) (d cols : nat) (i j : nat) : Z :=
  if le_spawn_chance (e (d + j * cols + i)%nat) then 1 else 0.

Definition random_board (e : nat → Z) (d rows cols : nat) : ndarray :=
  imap (λ j row, imap (λ i _, random_cell e d cols i j) row)
       (replicate rows (replicate cols 0)).

(** The world one [tick] leaves: two new arrays, the snapshot and the next
    grid, the snapshot appended to the history and the next grid live. *)
Definition after_tick (st : world) (g : ndarray) : world :=
  mkWorld (arrays st ++ [g; next_board g]) (files st) (entropy st) (drawn st)
    (mkGameBoard (history (self st) ++ [length (arrays st)])
                 (S (length (arrays st)))
                 (initial_board (self st))).

(** The text [save_board] writes for a row of cells and for a grid. *)
Definition cells_text (row : list Z) : string :=
  foldr (λ c s, Str.str c +:+ " " +:+ s) EmptyString row.

Definition rows_text (g : ndarray) : string :=
  foldr (λ row s, cells_text row +:+ String "010"%char s) EmptyString g.

(** The text of a number with the decimal digits [ks], and strings without
    white space, that is, what [split] keeps together as one word. *)
Definition digits_text (ks : list Z) : string :=
  foldr (λ k s, String (Str.digit_char k) s) EmptyString ks.

Fixpoint no_space (s : string) : bool :=
  match s with
  | EmptyString => true
  | String c s' => negb (Str.isspace c) && no_space s'
  end.

(** The integers [read_board] finds on a line. *)
Definition ints_of_line (line : string) : list Z :=
  match comprehension Str.int (Str.split line) with
  | Ok ns => ns
  | _ => []
  end.

(** The world [k] ticks leave, from a live grid [g]. *)
Fixpoint after_ticks (st : world) (g : ndarray) (k : nat) : world :=
  match k with
  | O => st
  | S k' => after_ticks (after_tick st g) (next_board g) k'
  end.

(** The live grid after [k] ticks. *)
Definition generation (g : ndarray) (k : nat) : ndarray := Nat.iter k next_board g.

(** A board as construction leaves it: no history, a live grid [g0] and,
    as initial board, another array with the same contents. *)
Definition fresh (st : world) (g0 : ndarray) : Prop :=
  history (self st) = [] ∧
  board_is st g0 ∧
  arrays st !! initial_board (self st) = Some g0 ∧
  initial_board (self st) ≠ board (self st).

(** * Proofs *)

(** ** Running the monad *)

Lemma bind_run {A B} (m : M A) (f : A → M B) st a st' :
  m st = Ok (a, st') → (m ≫= f) st = f a st'.
Proof. intros H. unfold mbind, M_bind. by rewrite H. Qed.

Lemma lift_run {A} (r : result A) a st : r = Ok a → lift r st = Ok (a, st).
Proof. by intros ->. Qed.

(** A loop whose body leaves the state alone folds its accumulator. *)
Lemma for_acc_pure {A B} (f : A → B → B) (body : A → B → M B) st l :
  (∀ a acc, a ∈ l → body a acc st = Ok (f a acc, st)) →
  ∀ acc, for_acc l acc body st = Ok (foldl (λ acc a, f a acc) acc l, st).
Proof.
  induction l as [|a l IH]; intros Hbody acc; simpl; [done|].
  erewrite bind_run by (apply Hbody; left).
  apply IH. intros b acc' Hb. apply Hbody. by right.
Qed.

(** The loop rule: an invariant indexed by the number of iterations done. *)
Lemma for_in_inv {A} (I : nat → world → Prop) (body : A → M unit) l :
  (∀ i a s, l !! i = Some a → I i s → ∃ s', body a s = Ok (tt, s') ∧ I (S i) s') →
  ∀ st, I 0%nat st → ∃ s', for_in l body st = Ok (tt, s') ∧ I (length l) s'.
Proof.
  revert I. induction l as [|a l IH]; intros I Hbody st H0; simpl.
  - by exists st.
  - destruct (Hbody 0%nat a st eq_refl H0) as (s1 & Hrun & H1).
    destruct (IH (λ i, I (S i)) (λ i b s Hl, Hbody (S i) b s Hl) s1 H1) as (s2 & Hrun2 & H2).
    exists s2. split; [|done]. by erewrite bind_run by exact Hrun.
Qed.

Lemma range_lookup n i a : range n !! i = Some a → a = Z.of_nat i ∧ 0 <= a < n.
Proof. unfold range. intros [-> ?]%lookup_seqZ. lia. Qed.

Lemma range_length n : length (range n) = Z.to_nat n.
Proof. apply length_seqZ. Qed.

(** ** The two [while] loops of [shift_positions] *)

Lemma while_add len fuel x :
  0 < len → (Z.to_nat (- (x / len)) ≤ fuel)%nat →
  while fuel (λ x, x <? 0) (λ x, x + len) x = Ok (if x <? 0 then x mod len else x).
Proof.
  intros Hlen. revert x. induction fuel as [|fuel IH]; intros x Hfuel.
  - simpl. destruct (Z.ltb_spec x 0) as [Hx|Hx]; [|done].
    assert (x / len < 0) by (apply Z.div_lt_upper_bound; lia). lia.
  - simpl. destruct (Z.ltb_spec x 0) as [Hx|Hx]; [|done].
    assert (Hdiv : (x + len) / len = x / len + 1).
    { replace (x + len) with (x + 1 * len) by lia. apply Z.div_add. lia. }
    rewrite IH by (rewrite Hdiv; lia).
    assert (Hmod : (x + len) mod len = x mod len).
    { replace (x + len) with (x + 1 * len) by lia. apply Z.mod_add. lia. }
    destruct (Z.ltb_spec (x + len) 0) as [Hx'|Hx'].
    + by rewrite Hmod.
    + rewrite <- Hmod. by rewrite Z.mod_small by lia.
Qed.

Lemma while_sub len fuel x :
  0 < len → 0 <= x → (Z.to_nat (x / len) ≤ fuel)%nat →
  while fuel (λ x, len <=? x) (λ x, x - len) x = Ok (x mod len).
Proof.
  intros Hlen. revert x. induction fuel as [|fuel IH]; intros x Hx Hfuel.
  - simpl. destruct (Z.leb_spec len x) as [Hle|Hlt].
    + assert (1 <= x / len) by (apply Z.div_le_lower_bound; lia). lia.
    + by rewrite Z.mod_small by lia.
  - simpl. destruct (Z.leb_spec len x) as [Hle|Hlt].
    + assert (Hdiv : (x - len) / len = x / len - 1).
      { replace (x - len) with (x + (-1) * len) by lia. apply Z.div_add. lia. }
      assert (Hmod : (x - len) mod len = x mod len).
      { replace (x - len) with (x + (-1) * len) by lia. apply Z.mod_add. lia. }
      rewrite IH by (rewrite ?Hdiv; lia). by rewrite Hmod.
    + by rewrite Z.mod_small by lia.
Qed.

(** Both loops together reduce [x] modulo [len]. *)
Lemma while_shift len fuel x :
  0 < len → (Z.to_nat (Z.abs (x / len)) ≤ fuel)%nat →
  ∃ x1, while fuel (λ x, x <? 0) (λ x, x + len) x = Ok x1 ∧
        while fuel (λ x, len <=? x) (λ x, x - len) x1 = Ok (x mod len).
Proof.
  intros Hlen Hfuel.
  exists (if x <? 0 then x mod len else x). split.
  - apply while_add; [done|lia].
  - destruct (Z.ltb_spec x 0) as [Hx|Hx].
    + pose proof (Z.mod_pos_bound x len Hlen).
      rewrite while_sub; [by rewrite Z.mod_mod by lia|done|lia|].
      rewrite Z.div_small by lia. simpl. lia.
    + apply while_sub; [done|done|].
      assert (0 <= x / len) by (apply Z.div_pos; lia). lia.
Qed.

(** ** Reading the live grid *)

Lemma shape_width g h w : shape g h w → (0 < h)%nat → width g = Z.of_nat w.
Proof.
  intros [Hlen Hrows] Hh. unfold width. destruct g as [|row g]; simpl in *; [lia|].
  by rewrite (Forall_inv Hrows).
Qed.

Lemma shape_height g h w : shape g h w → height g = Z.of_nat h.
Proof. intros [Hlen _]. unfold height. by rewrite Hlen. Qed.

Lemma shape_lookup g h w j row : shape g h w → g !! j = Some row → length row = w.
Proof. intros [_ Hrows] Hj. by apply (proj1 (Forall_lookup _ _) Hrows j row). Qed.

Lemma index_in_range n i : 0 <= i < Z.of_nat n → index n i = Some (Z.to_nat i).
Proof.
  intros Hi. unfold index.
  destruct (Z.leb_spec 0 i); [|lia]. destruct (Z.ltb_spec i (Z.of_nat n)); [done|lia].
Qed.

Lemma getitem_cell g h w x y :
  shape g h w → 0 <= y < Z.of_nat h → 0 <= x < Z.of_nat w →
  getitem g y x = Ok (cell g x y).
Proof.
  intros Hshape Hy Hx. unfold getitem, cell.
  rewrite index_in_range by (rewrite (proj1 Hshape); lia).
  destruct (lookup_lt_is_Some_2 g (Z.to_nat y)) as [row Hrow].
  { rewrite (proj1 Hshape). lia. }
  pose proof (shape_lookup _ _ _ _ _ Hshape Hrow) as Hlen.
  destruct (lookup_lt_is_Some_2 row (Z.to_nat x)) as [v Hv]; [lia|].
  cbv beta iota. rewrite Hrow. cbn [mbind option_bind default].
  rewrite index_in_range by lia. by rewrite Hv.
Qed.

Section live_grid.
Context (st : world) (g : ndarray) (h w : nat).
Hypothesis Hboard : board_is st g.
Hypothesis Hshape : shape g h w.

Lemma board_len_run : board_len st = Ok (Z.of_nat h, st).
Proof.
  unfold board_len, self_board, gets, load, mbind, M_bind, mret, M_ret.
  rewrite Hboard. unfold len. by rewrite (proj1 Hshape).
Qed.

Lemma board_len_row0_run : (0 < h)%nat → board_len_row0 st = Ok (Z.of_nat w, st).
Proof.
  intros Hh.
  unfold board_len_row0, self_board, gets, load, mbind, M_bind.
  rewrite Hboard. destruct Hshape as [Hlen Hrows].
  destruct g as [|row g']; simpl in *; [lia|].
  by rewrite (Forall_inv Hrows).
Qed.

Lemma board_getitem_run x y :
  0 <= y < Z.of_nat h → 0 <= x < Z.of_nat w →
  board_getitem y x st = Ok (cell g x y, st).
Proof.
  intros Hy Hx.
  unfold board_getitem, self_board, gets, getitem_at, load, mbind, M_bind.
  rewrite Hboard. apply lift_run. by eapply getitem_cell.
Qed.

Lemma get_size_run : (0 < h)%nat → get_size st = Ok ((Z.of_nat w, Z.of_nat h), st).
Proof.
  intros Hh. unfold get_size.
  rewrite (bind_run _ _ _ _ _ (board_len_row0_run Hh)).
  by rewrite (bind_run _ _ _ _ _ board_len_run).
Qed.

(** [shift_positions] reduces both coordinates modulo the dimensions and
    leaves the state as it was. *)
Lemma shift_positions_run fuel x y :
  (0 < h)%nat → (0 < w)%nat →
  (Z.to_nat (Z.abs (x / Z.of_nat w)) ≤ fuel)%nat →
  (Z.to_nat (Z.abs (y / Z.of_nat h)) ≤ fuel)%nat →
  shift_positions fuel x y st = Ok ((x mod Z.of_nat w, y mod Z.of_nat h), st).
Proof.
  intros Hh Hw Hfx Hfy. unfold shift_positions.
  destruct (while_shift (Z.of_nat w) fuel x) as (x1 & Hx1 & Hx2); [lia|done|].
  destruct (while_shift (Z.of_nat h) fuel y) as (y1 & Hy1 & Hy2); [lia|done|].
  erewrite bind_run by (rewrite (bind_run _ _ _ _ _ (get_size_run Hh)); reflexivity).
  erewrite bind_run by (rewrite (bind_run _ _ _ _ _ (get_size_run Hh)); reflexivity).
  simpl.
  erewrite bind_run by (apply lift_run, Hx1).
  erewrite bind_run by (apply lift_run, Hx2).
  erewrite bind_run by (apply lift_run, Hy1).
  by erewrite bind_run by (apply lift_run, Hy2).
Qed.
End live_grid.

(** One step outside the grid on either side costs one turn of a loop. *)
Lemma near_div_bound (n : nat) (x i : Z) :
  0 <= x < Z.of_nat n → i ∈ [x - 1; x; x + 1] →
  (Z.to_nat (Z.abs (i / Z.of_nat n)) ≤ 1)%nat.
Proof.
  intros Hx Hi.
  assert (-1 <= i <= Z.of_nat n) as Hr.
  { repeat (apply elem_of_cons in Hi as [->|Hi]; [lia|]). by apply elem_of_nil in Hi. }
  assert (-1 <= i / Z.of_nat n) by (apply Z.div_le_lower_bound; lia).
  assert (i / Z.of_nat n < 2) by (apply Z.div_lt_upper_bound; lia).
  lia.
Qed.

Section cell_methods.
Context (st : world) (g : ndarray) (h w : nat) (fuel : nat) (x y : Z).
Hypothesis Hboard : board_is st g.
Hypothesis Hshape : shape g h w.
Hypothesis Hfuel : (1 ≤ fuel)%nat.
Hypothesis Hx : 0 <= x < Z.of_nat w.
Hypothesis Hy : 0 <= y < Z.of_nat h.

Lemma get_neighbors_run :
  get_neighbors fuel x y st = Ok (neighbors_value g x y, st).
Proof using All.
  assert (Hh : (0 < h)%nat) by lia. assert (Hw : (0 < w)%nat) by lia.
  unfold get_neighbors, neighbors_value.
  erewrite bind_run; last first.
  { apply (for_acc_pure (λ i n,
      foldl (λ n j, if wrapped g i j =? 1 then n + 1 else n) n [y - 1; y; y + 1])).
    intros i n Hi.
    apply (for_acc_pure (λ j n, if wrapped g i j =? 1 then n + 1 else n)).
    intros j n' Hj.
    erewrite bind_run; last first.
    { eapply shift_positions_run; try done.
      - pose proof (near_div_bound w x i Hx Hi). lia.
      - pose proof (near_div_bound h y j Hy Hj). lia. }
    cbv beta iota.
    erewrite bind_run; last first.
    { eapply board_getitem_run; try done; apply Z.mod_pos_bound; lia. }
    unfold wrapped.
    rewrite (shape_width _ _ _ Hshape Hh), (shape_height _ _ _ Hshape).
    by destruct (_ =? 1). }
  erewrite bind_run by by eapply board_getitem_run.
  by destruct (_ =? 1).
Qed.

Lemma update_cell_run :
  update_cell fuel x y st = Ok (update_value g x y, st).
Proof using All.
  unfold update_cell, update_value.
  rewrite (bind_run _ _ _ _ _ get_neighbors_run).
  erewrite bind_run by by eapply board_getitem_run.
  destruct (_ =? 0).
  - destruct (_ =? 3); [done|]. by eapply board_getitem_run.
  - destruct (_ || _); [done|]. by eapply board_getitem_run.
Qed.
End cell_methods.

(** ** The buffer of [tick] *)

Lemma imap_same {A} (l : list A) : imap (λ _ a, a) l = l.
Proof.
  apply list_eq. intros i. rewrite list_lookup_imap. by destruct (l !! i).
Qed.

Section partial_fill.
Context (f : nat → nat → Z).

Lemma partial_fill_start g : partial_fill f g 0 0 = g.
Proof.
  unfold partial_fill. rewrite <- (imap_same g) at 2.
  apply imap_ext. intros j row _. rewrite <- (imap_same row) at 2.
  apply imap_ext. intros i c _. simpl. case_decide; [lia|done].
Qed.

Lemma partial_fill_next_row g h w y :
  shape g h w → partial_fill f g y w = partial_fill f g (S y) 0.
Proof.
  intros Hshape. unfold partial_fill.
  apply imap_ext. intros j row Hrow. apply imap_ext. intros i c Hc. simpl.
  pose proof (shape_lookup _ _ _ _ _ Hshape Hrow).
  apply lookup_lt_Some in Hc.
  apply decide_ext. lia.
Qed.

Lemma partial_fill_end g :
  partial_fill f g (length g) 0 = imap (λ j row, imap (λ i _, f i j) row) g.
Proof.
  unfold partial_fill.
  apply imap_ext. intros j row Hrow. apply imap_ext. intros i c Hc. simpl.
  apply lookup_lt_Some in Hrow. case_decide; [done|lia].
Qed.

Lemma partial_fill_length g y x : length (partial_fill f g y x) = length g.
Proof. apply length_imap. Qed.

Lemma partial_fill_shape g h w y x : shape g h w → shape (partial_fill f g y x) h w.
Proof.
  intros [Hlen Hrows]. split; [by rewrite partial_fill_length|].
  apply Forall_lookup. intros j row. unfold partial_fill.
  rewrite list_lookup_imap. destruct (g !! j) as [row'|] eqn:Hj; [|done].
  simpl. intros [= <-]. rewrite length_imap.
  by apply (proj1 (Forall_lookup _ _) Hrows j).
Qed.

(** Writing the next cell moves the pass one cell on. *)
Lemma partial_fill_write g h w (y x : nat) :
  shape g h w → (y < h)%nat → (x < w)%nat →
  setitem (partial_fill f g y x) (Z.of_nat y) (Z.of_nat x) (f x y)
  = Ok (partial_fill f g y (S x)).
Proof.
  intros Hshape Hy Hx. unfold setitem.
  rewrite partial_fill_length, index_in_range by (rewrite (proj1 Hshape); lia).
  rewrite Nat2Z.id.
  destruct (lookup_lt_is_Some_2 g y) as [row Hrow]; [rewrite (proj1 Hshape); lia|].
  pose proof (shape_lookup _ _ _ _ _ Hshape Hrow) as Hlen.
  unfold partial_fill at 1 2. rewrite list_lookup_imap, Hrow. simpl.
  rewrite length_imap, index_in_range by lia. rewrite Nat2Z.id.
  f_equal. apply list_eq. intros j.
  destruct (decide (j = y)) as [->|Hj].
  - rewrite list_lookup_insert_eq by (rewrite length_imap, (proj1 Hshape); lia).
    unfold partial_fill. rewrite list_lookup_imap, Hrow. simpl. f_equal.
    apply list_eq. intros i. destruct (decide (i = x)) as [->|Hi].
    + rewrite list_lookup_insert_eq by (rewrite length_imap; lia).
      rewrite list_lookup_imap.
      destruct (lookup_lt_is_Some_2 row x) as [c Hc]; [lia|]. rewrite Hc. simpl.
      case_decide; [done|lia].
    + rewrite list_lookup_insert_ne by done. rewrite !list_lookup_imap.
      destruct (row !! i); [simpl|done]. f_equal. apply decide_ext. lia.
  - rewrite list_lookup_insert_ne by done.
    unfold partial_fill. rewrite !list_lookup_imap.
    destruct (g !! j) as [row'|]; [simpl|done]. f_equal.
    apply imap_ext. intros i c _. simpl. apply decide_ext. lia.
Qed.

(** A cell that already holds its value needs no write. *)
Lemma partial_fill_skip g (y x : nat) :
  (∀ row c, g !! y = Some row → row !! x = Some c → c = f x y) →
  partial_fill f g y x = partial_fill f g y (S x).
Proof.
  intros Hsame. unfold partial_fill.
  apply imap_ext. intros j row Hrow. apply imap_ext. intros i c Hc. simpl.
  destruct (decide (j = y ∧ i = x)) as [[-> ->]|Hne].
  - rewrite (Hsame row c Hrow Hc). by repeat case_decide.
  - apply decide_ext. lia.
Qed.
End partial_fill.

Lemma partial_board_start g : partial_board g 0 0 = g.
Proof. apply partial_fill_start. Qed.

Lemma partial_board_next_row g h w y :
  shape g h w → partial_board g y w = partial_board g (S y) 0.
Proof. apply partial_fill_next_row. Qed.

Lemma partial_board_end g : partial_board g (length g) 0 = next_board g.
Proof. apply partial_fill_end. Qed.

Lemma partial_board_write g h w (y x : nat) :
  shape g h w → (y < h)%nat → (x < w)%nat →
  setitem (partial_board g y x) (Z.of_nat y) (Z.of_nat x)
          (update_value g (Z.of_nat x) (Z.of_nat y))
  = Ok (partial_board g y (S x)).
Proof. apply (partial_fill_write (λ i j, update_value g (Z.of_nat i) (Z.of_nat j))). Qed.

Lemma next_board_shape g h w : shape g h w → shape (next_board g) h w.
Proof.
  intros Hshape. rewrite <- partial_board_end. by apply partial_fill_shape.
Qed.

(** ** Copies and writes on the heap *)

Lemma copy_run st l a :
  arrays st !! l = Some a →
  copy l st = Ok (length (arrays st), set_arrays (arrays st ++ [a]) st).
Proof. intros Hl. unfold copy, load, alloc, mbind, M_bind. by rewrite Hl. Qed.

Lemma setitem_at_run st l a a' j i v :
  arrays st !! l = Some a → setitem a j i v = Ok a' →
  setitem_at l j i v st = Ok (tt, set_arrays (<[l := a']> (arrays st)) st).
Proof.
  intros Hl Hset. unfold setitem_at, load, store, lift, mbind, M_bind.
  by rewrite Hl, Hset, Hl.
Qed.

(** ** One tick *)

Section tick.
Context (st : world) (g : ndarray) (h w : nat) (fuel : nat).
Hypothesis Hboard : board_is st g.
Hypothesis Hshape : shape g h w.
Hypothesis Hfuel : (1 ≤ fuel)%nat.

(** The world inside the loops: the snapshot is taken and [temp_board]
    holds [t]. *)
Let inside (t : ndarray) : world :=
  mkWorld (arrays st ++ [g; t]) (files st) (entropy st) (drawn st)
    (mkGameBoard (history (self st) ++ [length (arrays st)])
                 (board (self st)) (initial_board (self st))).

Local Lemma inside_board t : board_is (inside t) g.
Proof using Hboard.
  unfold board_is, inside. simpl. rewrite lookup_app_l; [done|].
  by eapply lookup_lt_Some.
Qed.

Local Lemma inside_temp t : arrays (inside t) !! S (length (arrays st)) = Some t.
Proof.
  unfold inside. simpl. rewrite lookup_app_r by lia.
  by replace (S (length (arrays st)) - length (arrays st))%nat with 1%nat by lia.
Qed.

Local Lemma inside_write t t' :
  set_arrays (<[S (length (arrays st)) := t']> (arrays (inside t))) (inside t) = inside t'.
Proof.
  unfold inside, set_arrays. simpl. f_equal.
  rewrite insert_app_r_alt by lia.
  by replace (S (length (arrays st)) - length (arrays st))%nat with 1%nat by lia.
Qed.

Local Lemma tick_row (y : nat) :
  (y < h)%nat →
  for_in (range (Z.of_nat w)) (λ x,
    v ← update_cell fuel x (Z.of_nat y);
    setitem_at (S (length (arrays st))) (Z.of_nat y) x v)
    (inside (partial_board g y 0))
  = Ok (tt, inside (partial_board g (S y) 0)).
Proof using All.
  intros Hy.
  destruct (for_in_inv (λ x s, s = inside (partial_board g y x))
    (λ x, v ← update_cell fuel x (Z.of_nat y);
          setitem_at (S (length (arrays st))) (Z.of_nat y) x v)
    (range (Z.of_nat w))) with (st := inside (partial_board g y 0))
    as (s & Hrun & Hs); [|reflexivity|].
  2:{ rewrite Hrun. subst s. rewrite range_length, Nat2Z.id.
      by erewrite partial_board_next_row. }
  intros i x s Hi ->. apply range_lookup in Hi as [-> Hi]. eexists. split; [|reflexivity].
  erewrite bind_run; last first.
  { eapply update_cell_run; [apply inside_board|done..|lia]. }
  erewrite setitem_at_run;
    [|apply inside_temp|apply (partial_board_write g h w); [done|lia..]].
  by rewrite inside_write.
Qed.

Lemma tick_run : tick fuel st = Ok (tt, after_tick st g).
Proof using All.
  unfold tick.
  erewrite bind_run; last first.
  { unfold self_board, gets. erewrite bind_run by reflexivity. by apply copy_run. }
  unfold get_animation, gets, set_history, modify.
  erewrite bind_run by reflexivity. erewrite bind_run by reflexivity.
  erewrite bind_run; last first.
  { unfold self_board, gets. erewrite bind_run by reflexivity. simpl.
    apply copy_run. simpl. rewrite lookup_app_l; [done|]. by eapply lookup_lt_Some. }
  simpl. rewrite length_app. simpl.
  replace (length (arrays st) + 1)%nat with (S (length (arrays st))) by lia.
  match goal with |- context [mbind _ _ ?s] =>
    replace s with (inside (partial_board g 0 0))
  end.
  2:{ rewrite partial_board_start. unfold inside, set_arrays, set_self. simpl.
      by rewrite <- app_assoc. }
  erewrite bind_run by (eapply board_len_run; [apply inside_board|done]).
  erewrite bind_run; last first.
  { match goal with |- for_in ?l ?body ?s0 = _ =>
      destruct (for_in_inv (λ y s, s = inside (partial_board g y 0)) body l)
        with (st := s0) as (s & Hrun & Hs);
        [|reflexivity|rewrite Hrun; subst s; reflexivity]
    end.
    intros y a s Ha ->. apply range_lookup in Ha as [-> Ha].
    eexists. split; [|reflexivity].
    erewrite bind_run
      by (eapply board_len_row0_run; [apply inside_board|done|lia]).
    apply tick_row. lia. }
  rewrite range_length, Nat2Z.id, <- (proj1 Hshape), partial_board_end.
  reflexivity.
Qed.
End tick.

(** ** The code against the specification *)

Lemma binary_cell g x y : binary g → cell g x y = 0 ∨ cell g x y = 1.
Proof.
  intros Hbin. unfold cell.
  destruct (g !! Z.to_nat y) as [row|] eqn:Hrow; simpl; [|by left].
  destruct (row !! Z.to_nat x) as [c|] eqn:Hc; simpl; [|by left].
  pose proof (proj1 (Forall_lookup _ _) Hbin _ _ Hrow) as Hr.
  exact (proj1 (Forall_lookup _ _) Hr _ _ Hc).
Qed.

Lemma count_alive_cons c l :
  Z.of_nat (length (filter (λ c, Spec.alive c = true) (c :: l)))
  = (if c =? 1 then 1 else 0) + Z.of_nat (length (filter (λ c, Spec.alive c = true) l)).
Proof.
  rewrite filter_cons. case_decide as Hc; unfold Spec.alive in Hc.
  - rewrite Hc. simpl length. lia.
  - destruct (c =? 1); [done|lia].
Qed.

Lemma neighbors_value_spec g h w x y :
  shape g h w → 0 <= x < Z.of_nat w → 0 <= y < Z.of_nat h →
  neighbors_value g x y = Spec.count_neighbors g x y.
Proof.
  intros Hshape Hx Hy.
  assert (Hcentre : wrapped g x y = cell g x y).
  { unfold wrapped. rewrite (shape_width g h w), (shape_height g h w) by (done || lia).
    by rewrite !Z.mod_small by lia. }
  assert (Hif : ∀ (b : bool) n, (if b then n + 1 else n) = n + (if b then 1 else 0)).
  { intros [] n; lia. }
  unfold neighbors_value, Spec.count_neighbors, Spec.moore, Spec.normalize.
  cbn [foldl map fst snd].
  change (x + -1) with (x - 1). change (y + -1) with (y - 1).
  rewrite !Z.add_0_r. fold (wrapped g (x - 1) (y - 1)).
  fold (wrapped g (x - 1) y) (wrapped g (x - 1) (y + 1)) (wrapped g x (y - 1))
       (wrapped g x (y + 1)) (wrapped g (x + 1) (y - 1)) (wrapped g (x + 1) y)
       (wrapped g (x + 1) (y + 1)).
  rewrite !count_alive_cons, !Hif, Hcentre. simpl.
  destruct (cell g x y =? 1); lia.
Qed.

Lemma update_value_spec g h w x y :
  shape g h w → binary g → 0 <= x < Z.of_nat w → 0 <= y < Z.of_nat h →
  update_value g x y = Spec.next_state g x y.
Proof.
  intros Hshape Hbin Hx Hy. unfold update_value, Spec.next_state, Spec.alive.
  rewrite (neighbors_value_spec g h w) by done.
  destruct (binary_cell g x y Hbin) as [-> | ->]; simpl.
  - done.
  - destruct (Z.eqb_spec (Spec.count_neighbors g x y) 2) as [->|?]; [done|].
    destruct (Z.eqb_spec (Spec.count_neighbors g x y) 3) as [->|?]; [done|].
    simpl. destruct (Z.ltb_spec (Spec.count_neighbors g x y) 2); [done|].
    destruct (Z.ltb_spec 3 (Spec.count_neighbors g x y)); [done|lia].
Qed.

Lemma next_board_spec g h w : shape g h w → binary g → next_board g = Spec.tick g.
Proof.
  intros Hshape Hbin. unfold next_board, Spec.tick, Spec.install.
  apply imap_ext. intros j row Hrow. apply imap_ext. intros i c Hc. simpl.
  unfold Spec.next_states. rewrite list_lookup_imap, Hrow. simpl.
  rewrite list_lookup_imap, Hc. simpl.
  pose proof (shape_lookup _ _ _ _ _ Hshape Hrow).
  apply lookup_lt_Some in Hrow, Hc.
  apply (update_value_spec g h w); try done; [lia|rewrite <- (proj1 Hshape); lia].
Qed.

Lemma blinker5_shape : shape blinker5 5 5.
Proof. split; [reflexivity|]. repeat constructor. Qed.

Lemma blinker5_binary : binary blinker5.
Proof.
  unfold binary, blinker5. repeat (apply Forall_cons_2 || apply Forall_nil_2); lia.
Qed.

(** ** Random boards and construction *)

Lemma len_row0_shape a h w : shape a h w → (0 < h)%nat → len_row0 a = Ok (Z.of_nat w).
Proof.
  intros [Hlen Hrows] Hh. destruct a as [|row a]; simpl in *; [lia|].
  by rewrite (Forall_inv Hrows).
Qed.

Lemma zeros_shape (rows cols : nat) : shape (replicate rows (replicate cols 0)) rows cols.
Proof.
  split; [apply length_replicate|].
  apply Forall_forall. intros row [-> _]%elem_of_replicate. apply length_replicate.
Qed.

Lemma random_board_shape e d rows cols : shape (random_board e d rows cols) rows cols.
Proof.
  pose proof (partial_fill_end (random_cell e d cols)
                (replicate rows (replicate cols 0))) as Hend.
  rewrite length_replicate in Hend. unfold random_board. rewrite <- Hend.
  apply partial_fill_shape, zeros_shape.
Qed.

Lemma random_board_binary e d rows cols : binary (random_board e d rows cols).
Proof.
  apply Forall_lookup. intros j row. unfold random_board.
  rewrite list_lookup_imap. destruct (_ !! j) as [row'|]; [|done].
  simpl. intros [= <-]. apply Forall_lookup. intros i c.
  rewrite list_lookup_imap. destruct (row' !! i); [|done].
  simpl. intros [= <-]. unfold random_cell. destruct (le_spawn_chance _); auto.
Qed.

Section make_random_board.
Context (st : world) (rows cols : nat).

(** The world inside the loops: the new array holds [t] and [n] numbers
    have been drawn. *)
Let filling (t : ndarray) (n : nat) : world :=
  mkWorld (arrays st ++ [t]) (files st) (entropy st) n (self st).

Let fill := partial_fill (random_cell (entropy st) (drawn st) cols)
              (replicate rows (replicate cols 0)).

Local Lemma filling_load t n :
  load (length (arrays st)) (filling t n) = Ok (t, filling t n).
Proof.
  unfold load, filling. simpl. rewrite lookup_app_r by lia.
  by rewrite Nat.sub_diag.
Qed.

Local Lemma filling_write t t' n :
  set_arrays (<[length (arrays st) := t']> (arrays (filling t n))) (filling t n)
  = filling t' n.
Proof.
  unfold filling, set_arrays. simpl. f_equal.
  rewrite insert_app_r_alt by lia. by rewrite Nat.sub_diag.
Qed.

Local Lemma fill_shape y x : shape (fill y x) rows cols.
Proof. apply partial_fill_shape, zeros_shape. Qed.

Local Lemma random_row (y : nat) :
  (y < rows)%nat →
  for_in (range (Z.of_nat cols)) (λ col,
    rand ← rng_random;
    if le_spawn_chance rand
    then setitem_at (length (arrays st)) (Z.of_nat y) col 1 else mret tt)
    (filling (fill y 0) (drawn st + y * cols))
  = Ok (tt, filling (fill (S y) 0) (drawn st + S y * cols)).
Proof.
  intros Hy.
  match goal with |- for_in ?l ?body ?s0 = _ =>
    destruct (for_in_inv (λ x s, s = filling (fill y x) (drawn st + y * cols + x)) body l)
      with (st := s0) as (s & Hrun & Hs)
  end.
  - intros i x s Hi ->. apply range_lookup in Hi as [-> Hi].
    exists (filling (fill y (S i)) (S (drawn st + y * cols + i))).
    split; [|unfold filling; f_equal; lia].
    unfold rng_random at 1. unfold mbind, M_bind. cbn [entropy drawn filling].
    fold (random_cell (entropy st) (drawn st) cols i y).
    destruct (le_spawn_chance _) eqn:Hrand.
    + erewrite setitem_at_run.
      * unfold set_arrays, set_drawn, filling. simpl.
        rewrite insert_app_r_alt by lia. rewrite Nat.sub_diag. simpl. reflexivity.
      * simpl. rewrite lookup_app_r by lia. by rewrite Nat.sub_diag.
      * replace 1 with (random_cell (entropy st) (drawn st) cols i y)
          by (unfold random_cell; by rewrite Hrand).
        apply (partial_fill_write _ _ rows cols); [apply zeros_shape|lia..].
    + unfold mret, M_ret, set_drawn, filling. simpl. do 5 f_equal.
      unfold fill. apply partial_fill_skip. intros row c Hrow Hc.
      apply lookup_replicate in Hrow as [-> _]. apply lookup_replicate in Hc as [-> _].
      unfold random_cell. by rewrite Hrand.
  - by rewrite Nat.add_0_r.
  - rewrite Hrun. subst s. rewrite range_length, Nat2Z.id.
    unfold fill. erewrite partial_fill_next_row by apply zeros_shape.
    do 3 f_equal. lia.
Qed.

Lemma make_random_board_run :
  make_random_board (Z.of_nat rows, Z.of_nat cols) st
  = Ok (length (arrays st),
        filling (random_board (entropy st) (drawn st) rows cols)
                (drawn st + rows * cols)).
Proof.
  unfold make_random_board, zeros. cbn [fst snd].
  destruct (Z.ltb_spec (Z.of_nat rows) 0); [lia|].
  destruct (Z.ltb_spec (Z.of_nat cols) 0); [lia|]. simpl orb. cbv iota.
  rewrite !Nat2Z.id.
  erewrite bind_run by reflexivity.
  erewrite bind_run by reflexivity.
  change (set_arrays _ st) with (filling (replicate rows (replicate cols 0)) (drawn st)).
  erewrite bind_run by (erewrite bind_run by apply filling_load; reflexivity).
  unfold len. rewrite length_replicate.
  erewrite bind_run; last first.
  { match goal with |- for_in ?l ?body ?s0 = _ =>
      destruct (for_in_inv (λ y s, s = filling (fill y 0) (drawn st + y * cols)) body l)
        with (st := s0) as (s & Hrun & Hs);
        [| |rewrite Hrun; subst s; reflexivity]
    end.
    - intros y a s Ha ->. apply range_lookup in Ha as [-> Ha].
      eexists. split; [|reflexivity].
      erewrite bind_run; last first.
      { erewrite bind_run by apply filling_load.
        apply lift_run, (len_row0_shape _ rows cols); [apply fill_shape|lia]. }
      apply random_row. lia.
    - unfold fill. rewrite partial_fill_start. f_equal. simpl. lia. }
  rewrite range_length, Nat2Z.id. unfold fill.
  pose proof (partial_fill_end (random_cell (entropy st) (drawn st) cols)
                (replicate rows (replicate cols 0))) as Hend.
  rewrite length_replicate in Hend. by rewrite Hend.
Qed.
End make_random_board.

Lemma make_random_board_negative st r c :
  r < 0 ∨ c < 0 → make_random_board (r, c) st = Raise ValueError.
Proof.
  intros Hneg. unfold make_random_board, zeros, mbind, M_bind, lift. cbn [fst snd].
  destruct (Z.ltb_spec r 0); [done|]. destruct (Z.ltb_spec c 0); [done|lia].
Qed.

Lemma init_supplied_run st size l g :
  arrays st !! l = Some g →
  init size (Some l) st
  = Ok (tt, mkWorld (arrays st ++ [g]) (files st) (entropy st) (drawn st)
              (mkGameBoard [] l (length (arrays st)))).
Proof.
  intros Hl. unfold init, set_history, set_board, set_initial_board, modify, self_board, gets.
  erewrite bind_run by reflexivity. erewrite bind_run by reflexivity.
  erewrite bind_run; last first.
  { erewrite bind_run by reflexivity. simpl. by apply copy_run. }
  reflexivity.
Qed.

Lemma init_random_run st (rows cols : nat) :
  init (Z.of_nat rows, Z.of_nat cols) None st
  = Ok (tt, mkWorld
              (arrays st ++ [random_board (entropy st) (drawn st) rows cols;
                             random_board (entropy st) (drawn st) rows cols])
              (files st) (entropy st) (drawn st + rows * cols)
              (mkGameBoard [] (length (arrays st)) (S (length (arrays st))))).
Proof.
  unfold init, set_history, set_board, set_initial_board, modify, self_board, gets.
  erewrite bind_run by reflexivity.
  erewrite bind_run; last first.
  { erewrite bind_run by apply make_random_board_run. reflexivity. }
  erewrite bind_run; last first.
  { erewrite bind_run by reflexivity. simpl. apply copy_run.
    simpl. rewrite lookup_app_r by lia. by rewrite Nat.sub_diag. }
  simpl. rewrite length_app, <- app_assoc. simpl.
  by replace (length (arrays st) + 1)%nat with (S (length (arrays st))) by lia.
Qed.

Lemma init_negative st r c : r < 0 ∨ c < 0 → init (r, c) None st = Raise ValueError.
Proof.
  intros Hneg. unfold init, set_history, modify, mbind, M_bind.
  by rewrite make_random_board_negative.
Qed.

(** What construction establishes. *)
Lemma init_fresh size b pre st0 :
  init size b pre = Ok (tt, st0) → ∃ g0, fresh st0 g0.
Proof.
  intros Hinit. destruct b as [l|].
  - destruct (arrays pre !! l) as [g|] eqn:Hl.
    + rewrite (init_supplied_run _ _ _ _ Hl) in Hinit. injection Hinit as <-.
      apply lookup_lt_Some in Hl as Hlt.
      exists g. repeat split; unfold board_is; simpl.
      * by rewrite lookup_app_l.
      * rewrite lookup_app_r by lia. by rewrite Nat.sub_diag.
      * lia.
    + exfalso. revert Hinit.
      unfold init, set_history, set_board, modify, self_board, gets, copy, load.
      unfold mbind, M_bind. simpl. by rewrite Hl.
  - destruct size as [r c].
    destruct (decide (r < 0 ∨ c < 0)) as [Hneg|Hpos].
    + by rewrite init_negative in Hinit.
    + rewrite <- (Z2Nat.id r), <- (Z2Nat.id c), init_random_run in Hinit by lia.
      injection Hinit as <-. eexists. repeat split; unfold board_is; simpl.
      * rewrite lookup_app_r by lia. by rewrite Nat.sub_diag.
      * rewrite lookup_app_r by lia.
        by replace (S (length (arrays pre)) - length (arrays pre))%nat with 1%nat by lia.
      * lia.
Qed.

(** ** Many ticks *)

Lemma after_tick_board st g : board_is (after_tick st g) (next_board g).
Proof.
  unfold board_is, after_tick. simpl. rewrite lookup_app_r by lia.
  by replace (S (length (arrays st)) - length (arrays st))%nat with 1%nat by lia.
Qed.

Lemma after_tick_arrays st g l a :
  arrays st !! l = Some a → arrays (after_tick st g) !! l = Some a.
Proof.
  intros Hl. unfold after_tick. simpl. rewrite lookup_app_l; [done|].
  by eapply lookup_lt_Some.
Qed.

Lemma generation_succ g k : generation (next_board g) k = generation g (S k).
Proof. unfold generation. by rewrite Nat.iter_succ_r. Qed.

Lemma ticks_run st g h w fuel k :
  board_is st g → shape g h w → (1 ≤ fuel)%nat →
  ticks fuel k st = Ok (tt, after_ticks st g k).
Proof.
  intros Hboard Hshape Hfuel. revert st g Hboard Hshape.
  induction k as [|k IH]; intros st g Hboard Hshape; simpl; [done|].
  erewrite bind_run by by eapply tick_run.
  apply IH; [apply after_tick_board|by apply next_board_shape].
Qed.

Lemma after_ticks_board st g k : board_is st g → board_is (after_ticks st g k) (generation g k).
Proof.
  revert st g. induction k as [|k IH]; intros st g Hboard; [done|].
  rewrite <- generation_succ. simpl. apply IH, after_tick_board.
Qed.

Lemma after_ticks_arrays st g k l a :
  arrays st !! l = Some a → arrays (after_ticks st g k) !! l = Some a.
Proof.
  revert st g. induction k as [|k IH]; intros st g Hl; simpl; [done|].
  by apply IH, after_tick_arrays.
Qed.

Lemma after_ticks_initial st g k :
  initial_board (self (after_ticks st g k)) = initial_board (self st).
Proof.
  revert st g. induction k as [|k IH]; intros st g; simpl; [done|]. by rewrite IH.
Qed.

Lemma after_ticks_history st g k :
  ∃ new, history (self (after_ticks st g k)) = history (self st) ++ new ∧ length new = k.
Proof.
  revert st g. induction k as [|k IH]; intros st g; simpl.
  - exists []. by rewrite app_nil_r.
  - destruct (IH (after_tick st g) (next_board g)) as (new & Hnew & Hlen).
    exists (length (arrays st) :: new). simpl in Hnew.
    rewrite Hnew, <- app_assoc. simpl. by rewrite Hlen.
Qed.

(** The snapshot number [i] of a run of [k] ticks holds generation [i]. *)
Lemma after_ticks_snapshot st g k i :
  (i < k)%nat →
  ∃ l, history (self (after_ticks st g k)) !! (length (history (self st)) + i)%nat = Some l ∧
       arrays (after_ticks st g k) !! l = Some (generation g i).
Proof.
  revert st g i. induction k as [|k IH]; intros st g i Hi; [lia|]. simpl.
  destruct i as [|i].
  - exists (length (arrays st)). split.
    + destruct (after_ticks_history (after_tick st g) (next_board g) k) as (new & -> & _).
      simpl. rewrite <- app_assoc, Nat.add_0_r. by apply list_lookup_middle.
    + apply after_ticks_arrays. unfold after_tick. simpl.
      rewrite lookup_app_r by lia. by rewrite Nat.sub_diag.
  - destruct (IH (after_tick st g) (next_board g) i) as (l & Hl & Ha); [lia|].
    exists l. split; [|by rewrite <- generation_succ].
    rewrite <- Hl. f_equal. simpl. rewrite length_app. simpl. lia.
Qed.

Lemma board_is_unique st g g' : board_is st g → board_is st g' → g = g'.
Proof. unfold board_is. congruence. Qed.

(** [get_size] on a board with at least one row. *)
Lemma get_size_after_ticks st g h w k :
  board_is st g → shape g h w → (0 < h)%nat →
  get_size (after_ticks st g k) = Ok ((Z.of_nat w, Z.of_nat h), after_ticks st g k).
Proof.
  intros Hboard Hshape Hh.
  apply (get_size_run _ (generation g k)); [by apply after_ticks_board| |done].
  clear Hboard. induction k as [|k IH]; [done|]. by apply next_board_shape in IH.
Qed.

Lemma next_board_binary g : binary g → binary (next_board g).
Proof.
  intros Hbin. apply Forall_lookup. intros j row. unfold next_board.
  rewrite list_lookup_imap. destruct (g !! j) as [row'|]; [|done].
  simpl. intros [= <-]. apply Forall_lookup. intros i c.
  rewrite list_lookup_imap. destruct (row' !! i); [|done].
  simpl. intros [= <-]. unfold update_value.
  destruct (binary_cell g (Z.of_nat i) (Z.of_nat j) Hbin) as [-> | ->]; simpl.
  - destruct (_ =? 3); auto.
  - destruct (_ || _); auto.
Qed.

(** In general the two numbers come back in the other order, and ticks do
    not change them. *)
Lemma get_size_of_random_board (pre : world) (rows cols fuel k : nat) :
  (0 < rows)%nat → (1 ≤ fuel)%nat →
  ∃ st0 stk, init (Z.of_nat rows, Z.of_nat cols) None pre = Ok (tt, st0) ∧
             get_size st0 = Ok ((Z.of_nat cols, Z.of_nat rows), st0) ∧
             ticks fuel k st0 = Ok (tt, stk) ∧
             get_size stk = Ok ((Z.of_nat cols, Z.of_nat rows), stk).
Proof.
  intros Hrows Hfuel. eexists. eexists.
  split; [apply init_random_run|].
  match goal with |- get_size ?s = _ ∧ _ =>
    assert (Hboard : board_is s (random_board (entropy pre) (drawn pre) rows cols))
  end.
  { unfold board_is. simpl. rewrite lookup_app_r by lia. by rewrite Nat.sub_diag. }
  pose proof (random_board_shape (entropy pre) (drawn pre) rows cols) as Hshape.
  split; [by eapply get_size_run|].
  split; [by eapply ticks_run|].
  by apply get_size_after_ticks.
Qed.


(** ** Board files *)

(** Appending to a string that starts with known characters computes. *)
#[local] Arguments String.append !_ _ / : simpl nomatch.

Lemma append_assoc (a b c : string) : (a +:+ b) +:+ c = a +:+ b +:+ c.
Proof. induction a as [|x a IH]; simpl; [done|]. by rewrite IH. Qed.

Lemma append_nil_r (a : string) : a +:+ EmptyString = a.
Proof. induction a as [|x a IH]; simpl; [done|]. by rewrite IH. Qed.

(** A loop over [range(len(l))] that only looks at [l[x]] is a loop over
    the elements of [l]. *)
Lemma foldl_range_lookup {A B} (F : B → A → B) (d : A) (pre rest : list A) (acc : B) :
  foldl (λ acc x, F acc (default d ((pre ++ rest) !! Z.to_nat x))) acc
        (seqZ (Z.of_nat (length pre)) (Z.of_nat (length rest)))
  = foldl F acc rest.
Proof.
  revert pre acc. induction rest as [|a rest IH]; intros pre acc; [done|].
  rewrite seqZ_cons by (simpl; lia). simpl foldl.
  rewrite Nat2Z.id, list_lookup_middle by done. simpl default.
  replace (Z.succ (Z.of_nat (length pre))) with (Z.of_nat (length (pre ++ [a])))
    by (rewrite length_app; simpl; lia).
  replace (Z.pred (Z.of_nat (S (length rest)))) with (Z.of_nat (length rest)) by lia.
  rewrite <- (IH (pre ++ [a])). by rewrite <- app_assoc.
Qed.

Lemma foldl_cells_text row txt :
  foldl (λ txt c, (txt +:+ Str.str c) +:+ " ") txt row = txt +:+ cells_text row.
Proof.
  revert txt. induction row as [|c row IH]; intros txt; simpl.
  - by rewrite append_nil_r.
  - rewrite IH. by rewrite !append_assoc.
Qed.

Lemma foldl_rows_text g txt :
  foldl (λ txt row,
          foldl (λ txt c, (txt +:+ Str.str c) +:+ " ") txt row +:+ String "010"%char EmptyString)
        txt g
  = txt +:+ rows_text g.
Proof.
  revert txt. induction g as [|row g IH]; intros txt; simpl.
  - by rewrite append_nil_r.
  - rewrite IH, foldl_cells_text. by rewrite !append_assoc.
Qed.

(** What [save_board] writes. *)
Lemma save_board_run st l g h w filename :
  arrays st !! l = Some g → shape g h w →
  save_board l filename st
  = Ok (tt, set_files (<[filename := rows_text g]> (files st)) st).
Proof.
  intros Hl Hshape. unfold save_board.
  assert (Hload : load l st = Ok (g, st)) by (unfold load; by rewrite Hl).
  erewrite bind_run by (erewrite bind_run by exact Hload; reflexivity).
  erewrite bind_run; last first.
  { apply (for_acc_pure (λ y txt,
      foldl (λ txt c, (txt +:+ Str.str c) +:+ " ") txt (default [] (g !! Z.to_nat y))
      +:+ String "010"%char EmptyString)).
    intros y txt Hy. apply list_elem_of_lookup in Hy as [i Hi].
    apply range_lookup in Hi as [-> Hi]. unfold len in Hi.
    destruct (lookup_lt_is_Some_2 g i) as [row Hrow]; [lia|].
    pose proof (shape_lookup _ _ _ _ _ Hshape Hrow) as Hlen.
    erewrite bind_run; last first.
    { erewrite bind_run by exact Hload.
      apply lift_run, (len_row0_shape g h w); [done|]. rewrite <- (proj1 Hshape). lia. }
    erewrite bind_run; last first.
    { apply (for_acc_pure (λ x txt,
        (txt +:+ Str.str (default 0 (row !! Z.to_nat x))) +:+ " ")).
      intros x txt' Hx. apply list_elem_of_lookup in Hx as [k Hk].
      apply range_lookup in Hk as [-> Hk].
      erewrite bind_run; last first.
      { unfold getitem_at. erewrite bind_run by exact Hload.
        apply lift_run, (getitem_cell g h w); [done|rewrite <- (proj1 Hshape); lia|lia]. }
      unfold cell. rewrite !Nat2Z.id, Hrow. reflexivity. }
    rewrite Nat2Z.id, Hrow. simpl default.
    unfold range. rewrite <- Hlen.
    by rewrite (foldl_range_lookup (λ txt c, (txt +:+ Str.str c) +:+ " ") 0 [] row). }
  unfold range, len.
  rewrite (foldl_range_lookup
    (λ txt row, foldl (λ txt c, (txt +:+ Str.str c) +:+ " ") txt row
                +:+ String "010"%char EmptyString) [] [] g).
  by rewrite foldl_rows_text.
Qed.

(** Reading back a row of zeros and ones. *)
Lemma cells_text_0 row : cells_text (0 :: row) = String "0" (String " " (cells_text row)).
Proof. reflexivity. Qed.

Lemma cells_text_1 row : cells_text (1 :: row) = String "1" (String " " (cells_text row)).
Proof. reflexivity. Qed.

Lemma newlines_cells_text row rest :
  binary_row row →
  Str.universal_newlines (cells_text row +:+ String "010"%char rest)
  = cells_text row +:+ String "010"%char (Str.universal_newlines rest).
Proof.
  induction 1 as [|c row [-> | ->] _ IH]; [done|..];
    rewrite ?cells_text_0, ?cells_text_1; simpl; by rewrite IH.
Qed.

Lemma lines_from_cells_text row rest line :
  binary_row row →
  Str.lines_from (cells_text row +:+ String "010"%char rest) line
  = (line +:+ cells_text row +:+ String "010"%char EmptyString) :: Str.lines_from rest EmptyString.
Proof.
  intros Hrow. revert line.
  induction Hrow as [|c row [-> | ->] _ IH]; intros line; [done|..];
    rewrite ?cells_text_0, ?cells_text_1; simpl; rewrite IH; by rewrite !append_assoc.
Qed.

Lemma split_from_cells_text row :
  binary_row row →
  Str.split_from (cells_text row +:+ String "010"%char EmptyString) EmptyString = map Str.str row.
Proof.
  induction 1 as [|c row [-> | ->] _ IH]; [done|..];
    rewrite ?cells_text_0, ?cells_text_1; simpl; by rewrite IH.
Qed.

Lemma int_str_row row : binary_row row → comprehension Str.int (map Str.str row) = Ok row.
Proof.
  induction 1 as [|c row [-> | ->] _ IH]; [done|..]; simpl; by rewrite IH.
Qed.

Lemma ints_of_cells_text row :
  binary_row row → ints_of_line (cells_text row +:+ String "010"%char EmptyString) = row.
Proof.
  intros Hrow. unfold ints_of_line, Str.split.
  by rewrite split_from_cells_text, int_str_row.
Qed.

Lemma newlines_rows_text g :
  binary g → Str.universal_newlines (rows_text g) = rows_text g.
Proof.
  induction 1 as [|row g Hrow _ IH]; [done|].
  change (rows_text (row :: g)) with (cells_text row +:+ String "010"%char (rows_text g)).
  by rewrite newlines_cells_text, IH.
Qed.

Lemma lines_from_rows_text g :
  binary g →
  Str.lines_from (rows_text g) EmptyString
  = map (λ row, cells_text row +:+ String "010"%char EmptyString) g.
Proof.
  induction 1 as [|row g Hrow _ IH]; [done|].
  change (rows_text (row :: g)) with (cells_text row +:+ String "010"%char (rows_text g)).
  rewrite lines_from_cells_text by done. simpl. by rewrite IH.
Qed.

Lemma readlines_rows_text g :
  binary g →
  Str.readlines (rows_text g) = map (λ row, cells_text row +:+ String "010"%char EmptyString) g.
Proof.
  intros Hbin. unfold Str.readlines.
  by rewrite newlines_rows_text, lines_from_rows_text.
Qed.

Lemma array_shape g h w : shape g h w → array g = Ok g.
Proof.
  intros [_ Hrows]. unfold array. destruct g as [|row g]; [done|].
  apply Forall_cons in Hrows as [Hrow Hrest].
  replace (forallb _ g) with true; [done|]. symmetry. apply forallb_forall.
  intros r Hr. apply Nat.eqb_eq. rewrite Hrow.
  apply (proj1 (Forall_forall _ _) Hrest). by apply list_elem_of_In.
Qed.

(** What [read_board] makes of a file [save_board] wrote. *)
Lemma read_board_run st g h w filename :
  files st !! filename = Some (rows_text g) → shape g h w → binary g →
  read_board filename st
  = Ok (length (arrays st), set_arrays (arrays st ++ [g]) st).
Proof.
  intros Hfile Hshape Hbin. unfold read_board.
  erewrite bind_run by (unfold file_readlines; rewrite Hfile; reflexivity).
  rewrite readlines_rows_text by done.
  erewrite bind_run; last first.
  { apply (for_acc_pure (λ line board, board ++ [ints_of_line line])).
    intros line board Hline.
    apply list_elem_of_fmap in Hline as (row & -> & Hrow).
    pose proof (proj1 (Forall_forall _ _) Hbin row Hrow) as Hbrow.
    rewrite ints_of_cells_text by done.
    erewrite bind_run by (apply lift_run; unfold Str.split;
                          rewrite split_from_cells_text by done;
                          by apply int_str_row).
    reflexivity. }
  assert (Hfold : ∀ acc,
    foldl (λ board line, board ++ [ints_of_line line]) acc
          (map (λ row, cells_text row +:+ String "010"%char EmptyString) g) = acc ++ g).
  { clear Hfile Hshape. induction Hbin as [|row g' Hrow _ IH]; intros acc; simpl.
    - by rewrite app_nil_r.
    - rewrite IH, ints_of_cells_text by done. by rewrite <- app_assoc. }
  rewrite Hfold. simpl.
  by erewrite bind_run by (apply lift_run; by eapply array_shape).
Qed.

(** The functions of [Str] on some strings. *)
Example str_examples :
  Str.str 0 = "0" ∧ Str.str 1 = "1" ∧ Str.str 120 = "120" ∧ Str.str (-45) = "-45".
Proof. repeat split. Qed.

Example split_example :
  Str.split (String "009"%char " 0 11  x" +:+ String "010"%char EmptyString) = ["0"; "11"; "x"].
Proof. reflexivity. Qed.

Example int_examples :
  Str.int "1" = Ok 1 ∧ Str.int "-07" = Ok (-7) ∧ Str.int "1_0" = Ok 10 ∧
  Str.int EmptyString = Raise ValueError ∧ Str.int "1x" = Raise ValueError ∧
  Str.int "_1" = Raise ValueError.
Proof. repeat split. Qed.

Example readlines_example :
  Str.readlines ("0 1" +:+ String "013"%char (String "010"%char "1 0"))
  = ["0 1" +:+ String "010"%char EmptyString; "1 0"].
Proof. reflexivity. Qed.

(** * The specification, statement by statement *)

(** C4.  On a board with at least one row and one column, [shift_positions]
    returns for all integers [x] and [y], however far outside the grid, once
    the loops are given enough turns; what it returns is [x] modulo the width
    and [y] modulo the height, both non-negative and below the dimension;
    and the state it returns in is the state it was called in. *)
Theorem shift_positions_modulo (st : world) (g : ndarray) (h w : nat) (x y : Z) :
  board_is st g → shape g h w → (1 ≤ w)%nat → (1 ≤ h)%nat →
  (∃ n, ∀ fuel, (n ≤ fuel)%nat →
     shift_positions fuel x y st = Ok (Spec.normalize g x y, st)) ∧
  Spec.normalize g x y = (x mod Z.of_nat w, y mod Z.of_nat h) ∧
  0 <= x mod Z.of_nat w < Z.of_nat w ∧
  0 <= y mod Z.of_nat h < Z.of_nat h.
Proof.
  intros Hboard Hshape Hw Hh.
  assert (Hnorm : Spec.normalize g x y = (x mod Z.of_nat w, y mod Z.of_nat h)).
  { unfold Spec.normalize.
    by rewrite (shape_width g h w), (shape_height g h w) by (done || lia). }
  split; [|split; [done|split; apply Z.mod_pos_bound; lia]].
  exists (Z.to_nat (Z.abs (x / Z.of_nat w)) `max` Z.to_nat (Z.abs (y / Z.of_nat h)))%nat.
  intros fuel Hfuel. rewrite Hnorm.
  apply (shift_positions_run st g h w); try done; lia.
Qed.

Lemma shift_positions_modulo_witness :
  (∃ n, ∀ fuel, (n ≤ fuel)%nat →
     shift_positions fuel (-7) 12 (world_of blinker5)
     = Ok (Spec.normalize blinker5 (-7) 12, world_of blinker5)) ∧
  Spec.normalize blinker5 (-7) 12 = (-7 mod 5, 12 mod 5) ∧
  0 <= -7 mod 5 < 5 ∧ 0 <= 12 mod 5 < 5.
Proof.
  apply (shift_positions_modulo (world_of blinker5) blinker5 5 5 (-7) 12);
    [reflexivity | exact blinker5_shape | lia | lia].
Defined.

(** Without columns the second loop never ends: no number of turns is
    enough. *)
Example shift_positions_no_columns (fuel : nat) :
  shift_positions fuel 0 0 (world_of [[]]) = OutOfFuel.
Proof.
  assert (Hloop : while fuel (λ x, 0 <=? x) (λ x, x - 0) 0 = OutOfFuel)
    by (induction fuel; simpl; done).
  assert (Hfirst : while fuel (λ x, x <? 0) (λ x, x + 0) 0 = Ok 0)
    by (by destruct fuel).
  unfold shift_positions, mbind, M_bind, lift. simpl.
  change (Z.of_nat 0) with 0. by rewrite Hfirst, Hloop.
Qed.

(** C3.  For a cell inside the grid, [get_neighbors] returns the number of
    living cells among the eight positions of the Moore neighbourhood, each
    wrapped round the torus, the cell itself not among them; the same
    formula gives the result at every cell, edge and corner or interior. *)
Theorem get_neighbors_moore (st : world) (g : ndarray) (h w : nat) (fuel : nat) (x y : Z) :
  board_is st g → shape g h w → binary g → (1 ≤ fuel)%nat →
  0 <= x < Z.of_nat w → 0 <= y < Z.of_nat h →
  get_neighbors fuel x y st = Ok (Spec.count_neighbors g x y, st).
Proof.
  intros Hboard Hshape _ Hfuel Hx Hy.
  rewrite <- (neighbors_value_spec g h w) by done.
  by apply (get_neighbors_run st g h w).
Qed.

Lemma get_neighbors_moore_witness :
  get_neighbors 1 0 2 (world_of blinker5)
  = Ok (Spec.count_neighbors blinker5 0 2, world_of blinker5).
Proof.
  apply (get_neighbors_moore (world_of blinker5) blinker5 5 5 1 0 2);
    [reflexivity | exact blinker5_shape | exact blinker5_binary | lia | lia | lia].
Defined.

(** On a board of one cell the eight positions all wrap round to the cell
    itself, and a living cell has eight neighbours. *)
Example get_neighbors_one_cell :
  get_neighbors 1 0 0 (world_of [[1]]) = Ok (8, world_of [[1]]) ∧
  Spec.count_neighbors [[1]] 0 0 = 8.
Proof. split; reflexivity. Qed.

(** C2.  For a cell inside a grid of zeros and ones, [update_cell] returns
    the next state of B3/S23 on the number of living cells among the eight
    wrapped neighbours of the cell: a living cell stays alive with two or
    three of them and dies otherwise, a dead cell comes alive with exactly
    three and stays dead otherwise. *)
Theorem update_cell_b3s23 (st : world) (g : ndarray) (h w : nat) (fuel : nat) (x y : Z) :
  board_is st g → shape g h w → binary g → (1 ≤ fuel)%nat →
  0 <= x < Z.of_nat w → 0 <= y < Z.of_nat h →
  update_cell fuel x y st = Ok (Spec.next_state g x y, st) ∧
  (cell g x y = 0 ∨ cell g x y = 1) ∧
  (cell g x y = 1 →
     Spec.count_neighbors g x y = 2 ∨ Spec.count_neighbors g x y = 3 →
     update_cell fuel x y st = Ok (1, st)) ∧
  (cell g x y = 1 →
     ¬ (Spec.count_neighbors g x y = 2 ∨ Spec.count_neighbors g x y = 3) →
     update_cell fuel x y st = Ok (0, st)) ∧
  (cell g x y = 0 → Spec.count_neighbors g x y = 3 →
     update_cell fuel x y st = Ok (1, st)) ∧
  (cell g x y = 0 → Spec.count_neighbors g x y ≠ 3 →
     update_cell fuel x y st = Ok (0, st)).
Proof.
  intros Hboard Hshape Hbin Hfuel Hx Hy.
  assert (Hrun : update_cell fuel x y st = Ok (Spec.next_state g x y, st)).
  { rewrite (update_cell_run st g h w) by done.
    by rewrite (update_value_spec g h w). }
  split; [done|]. split; [by apply binary_cell|].
  rewrite Hrun. unfold Spec.next_state, Spec.alive.
  repeat split; intros Hc Hn; rewrite Hc; simpl.
  - by destruct Hn as [-> | ->].
  - destruct (Z.eqb_spec (Spec.count_neighbors g x y) 2); [lia|].
    destruct (Z.eqb_spec (Spec.count_neighbors g x y) 3); [lia|]. done.
  - by rewrite Hn.
  - by destruct (Z.eqb_spec (Spec.count_neighbors g x y) 3).
Qed.

Lemma update_cell_b3s23_witness :
  update_cell 1 2 1 (world_of blinker5)
    = Ok (Spec.next_state blinker5 2 1, world_of blinker5) ∧
  (cell blinker5 2 1 = 0 ∨ cell blinker5 2 1 = 1) ∧
  (cell blinker5 2 1 = 1 →
     Spec.count_neighbors blinker5 2 1 = 2 ∨ Spec.count_neighbors blinker5 2 1 = 3 →
     update_cell 1 2 1 (world_of blinker5) = Ok (1, world_of blinker5)) ∧
  (cell blinker5 2 1 = 1 →
     ¬ (Spec.count_neighbors blinker5 2 1 = 2 ∨ Spec.count_neighbors blinker5 2 1 = 3) →
     update_cell 1 2 1 (world_of blinker5) = Ok (0, world_of blinker5)) ∧
  (cell blinker5 2 1 = 0 → Spec.count_neighbors blinker5 2 1 = 3 →
     update_cell 1 2 1 (world_of blinker5) = Ok (1, world_of blinker5)) ∧
  (cell blinker5 2 1 = 0 → Spec.count_neighbors blinker5 2 1 ≠ 3 →
     update_cell 1 2 1 (world_of blinker5) = Ok (0, world_of blinker5)).
Proof.
  apply (update_cell_b3s23 (world_of blinker5) blinker5 5 5 1 2 1);
    [reflexivity | exact blinker5_shape | exact blinker5_binary | lia | lia | lia].
Defined.

(** The four literal cases of the rule, on the code. *)
Example update_cell_cases :
  let run g := update_cell 1 1 1 (world_of g) in
  run [[0;1;0]; [0;1;0]; [0;1;0]; [0;0;0]] = Ok (1, world_of [[0;1;0]; [0;1;0]; [0;1;0]; [0;0;0]]) ∧
  run [[1;1;0]; [0;1;0]; [1;1;0]; [0;0;0]] = Ok (0, world_of [[1;1;0]; [0;1;0]; [1;1;0]; [0;0;0]]) ∧
  run [[1;1;0]; [0;0;0]; [0;1;0]; [0;0;0]] = Ok (1, world_of [[1;1;0]; [0;0;0]; [0;1;0]; [0;0;0]]) ∧
  run [[0;1;0]; [0;0;0]; [0;0;0]; [0;0;0]] = Ok (0, world_of [[0;1;0]; [0;0;0]; [0;0;0]; [0;0;0]]).
Proof. repeat split. Qed.

(** C1.  One [tick] on a grid of zeros and ones makes the live grid the
    grid of the two-pass scheme, every next state computed from the grid as
    it was before the tick; the arrays that were on the heap, the old grid
    among them, are as they were. *)
Theorem tick_simultaneous (st : world) (g : ndarray) (h w : nat) (fuel : nat) :
  board_is st g → shape g h w → binary g → (1 ≤ fuel)%nat →
  ∃ st', tick fuel st = Ok (tt, st') ∧
         board_is st' (Spec.tick g) ∧
         (∀ l a, arrays st !! l = Some a → arrays st' !! l = Some a).
Proof.
  intros Hboard Hshape Hbin Hfuel.
  exists (after_tick st g). split; [by apply (tick_run st g h w)|].
  rewrite <- (next_board_spec g h w) by done. split.
  - unfold board_is, after_tick. simpl. rewrite lookup_app_r by lia.
    by replace (S (length (arrays st)) - length (arrays st))%nat with 1%nat by lia.
  - intros l a Hl. unfold after_tick. simpl. rewrite lookup_app_l; [done|].
    by eapply lookup_lt_Some.
Qed.

Lemma tick_simultaneous_witness :
  ∃ st', tick 1 (world_of blinker5) = Ok (tt, st') ∧
         board_is st' (Spec.tick blinker5) ∧
         (∀ l a, arrays (world_of blinker5) !! l = Some a → arrays st' !! l = Some a).
Proof.
  apply (tick_simultaneous (world_of blinker5) blinker5 5 5 1);
    [reflexivity | exact blinker5_shape | exact blinker5_binary | lia].
Defined.

(** The blinker turns, and the one-pass update that reads what it has just
    written would have given something else. *)
Example blinker5_turns :
  Spec.tick blinker5 = [[0;0;0;0;0]; [0;0;1;0;0]; [0;0;1;0;0]; [0;0;1;0;0]; [0;0;0;0;0]] ∧
  Spec.naive_tick blinker5 ≠ Spec.tick blinker5.
Proof. split; [reflexivity|discriminate]. Qed.

(** C5.  On a freshly constructed board, [k] ticks leave a history of
    length [k] whose entry [i] holds the live grid as it was after [i]
    ticks, that is just before tick number [i] wrote its update; entry 0
    holds the grid of construction time. *)
Theorem history_records_generations
    (size : Z * Z) (b : option loc) (pre st0 : world) (g0 : ndarray) (h w fuel k : nat) :
  init size b pre = Ok (tt, st0) → board_is st0 g0 → shape g0 h w → (1 ≤ fuel)%nat →
  ∃ stk, ticks fuel k st0 = Ok (tt, stk) ∧
         length (history (self stk)) = k ∧
         ∀ i, (i < k)%nat →
           ∃ sti gi l, ticks fuel i st0 = Ok (tt, sti) ∧ board_is sti gi ∧
                       history (self stk) !! i = Some l ∧
                       arrays stk !! l = Some gi ∧
                       (i = 0%nat → gi = g0).
Proof.
  intros Hinit Hboard Hshape Hfuel.
  destruct (init_fresh _ _ _ _ Hinit) as (g0' & Hhist & _).
  exists (after_ticks st0 g0 k). split; [by eapply ticks_run|]. split.
  - destruct (after_ticks_history st0 g0 k) as (new & -> & <-). by rewrite Hhist.
  - intros i Hi. exists (after_ticks st0 g0 i), (generation g0 i).
    destruct (after_ticks_snapshot st0 g0 k i Hi) as (l & Hl & Ha).
    rewrite Hhist in Hl. simpl in Hl.
    exists l. repeat split; [by eapply ticks_run|by apply after_ticks_board|done..|].
    by intros ->.
Qed.

Lemma history_records_generations_witness :
  ∃ stk, ticks 1 3 fresh_blinker5 = Ok (tt, stk) ∧
         length (history (self stk)) = 3%nat ∧
         ∀ i, (i < 3)%nat →
           ∃ sti gi l, ticks 1 i fresh_blinker5 = Ok (tt, sti) ∧ board_is sti gi ∧
                       history (self stk) !! i = Some l ∧
                       arrays stk !! l = Some gi ∧
                       (i = 0%nat → gi = blinker5).
Proof.
  apply (history_records_generations (5, 5) (Some 0%nat) (world_of blinker5)
           fresh_blinker5 blinker5 5 5 1 3);
    [reflexivity | reflexivity | exact blinker5_shape | lia].
Defined.

(** C8.  On a constructed board, whatever the number of ticks,
    [get_initial_board] returns the array it returned before any tick, and
    that array holds the grid of construction time. *)
Theorem initial_board_unchanged
    (size : Z * Z) (b : option loc) (pre st0 : world) (g0 : ndarray) (h w fuel k : nat) :
  init size b pre = Ok (tt, st0) → board_is st0 g0 → shape g0 h w → (1 ≤ fuel)%nat →
  ∃ stk l, ticks fuel k st0 = Ok (tt, stk) ∧
           get_initial_board st0 = Ok (l, st0) ∧
           get_initial_board stk = Ok (l, stk) ∧
           arrays st0 !! l = Some g0 ∧
           arrays stk !! l = Some g0.
Proof.
  intros Hinit Hboard Hshape Hfuel.
  destruct (init_fresh _ _ _ _ Hinit) as (g0' & _ & Hboard' & Hinitial & _).
  rewrite <- (board_is_unique _ _ _ Hboard Hboard') in Hinitial.
  exists (after_ticks st0 g0 k), (initial_board (self st0)).
  split; [by eapply ticks_run|]. split; [done|]. split.
  - unfold get_initial_board, gets. by rewrite after_ticks_initial.
  - split; [done|]. by apply after_ticks_arrays.
Qed.

Lemma initial_board_unchanged_witness :
  ∃ stk l, ticks 1 3 fresh_blinker5 = Ok (tt, stk) ∧
           get_initial_board fresh_blinker5 = Ok (l, fresh_blinker5) ∧
           get_initial_board stk = Ok (l, stk) ∧
           arrays fresh_blinker5 !! l = Some blinker5 ∧
           arrays stk !! l = Some blinker5.
Proof.
  apply (initial_board_unchanged (5, 5) (Some 0%nat) (world_of blinker5)
           fresh_blinker5 blinker5 5 5 1 3);
    [reflexivity | reflexivity | exact blinker5_shape | lia].
Defined.

(** C10.  Cells stay zeros and ones: on a grid of zeros and ones
    [update_cell] returns 0 or 1 for every cell inside the grid and [tick]
    installs a grid of zeros and ones again; and whatever numbers the
    generator draws, the board [make_random_board] returns holds only zeros
    and ones. *)
Theorem cells_stay_binary (st : world) (g : ndarray) (h w fuel : nat) :
  board_is st g → shape g h w → binary g → (1 ≤ fuel)%nat →
  (∀ x y, 0 <= x < Z.of_nat w → 0 <= y < Z.of_nat h →
     ∃ v, update_cell fuel x y st = Ok (v, st) ∧ (v = 0 ∨ v = 1)) ∧
  (∃ st' g', tick fuel st = Ok (tt, st') ∧ board_is st' g' ∧ binary g') ∧
  (∀ size pre l st1, make_random_board size pre = Ok (l, st1) →
     ∃ gr, arrays st1 !! l = Some gr ∧ binary gr).
Proof.
  intros Hboard Hshape Hbin Hfuel. repeat split.
  - intros x y Hx Hy. exists (update_value g x y).
    split; [by apply (update_cell_run st g h w)|].
    unfold update_value. destruct (binary_cell g x y Hbin) as [-> | ->]; simpl.
    + destruct (_ =? 3); auto.
    + destruct (_ || _); auto.
  - exists (after_tick st g), (next_board g).
    split; [by apply (tick_run st g h w)|].
    split; [apply after_tick_board|by apply next_board_binary].
  - intros [r c] pre l st1 Hrun.
    destruct (decide (r < 0 ∨ c < 0)) as [Hneg|Hpos].
    + by rewrite make_random_board_negative in Hrun.
    + rewrite <- (Z2Nat.id r), <- (Z2Nat.id c), make_random_board_run in Hrun by lia.
      injection Hrun as <- <-. eexists. split; [|apply random_board_binary].
      simpl. rewrite lookup_app_r by lia. by rewrite Nat.sub_diag.
Qed.

Lemma cells_stay_binary_witness :
  (∀ x y, 0 <= x < 5 → 0 <= y < 5 →
     ∃ v, update_cell 1 x y (world_of blinker5) = Ok (v, world_of blinker5) ∧
          (v = 0 ∨ v = 1)) ∧
  (∃ st' g', tick 1 (world_of blinker5) = Ok (tt, st') ∧ board_is st' g' ∧ binary g') ∧
  (∀ size pre l st1, make_random_board size pre = Ok (l, st1) →
     ∃ gr, arrays st1 !! l = Some gr ∧ binary gr).
Proof.
  apply (cells_stay_binary (world_of blinker5) blinker5 5 5 1);
    [reflexivity | exact blinker5_shape | exact blinker5_binary | lia].
Defined.

(** C6.  A board made for the size [[2, 3]], two across and three down,
    reports the size [[3, 2]]: [make_random_board] hands [size[0]] to numpy
    as the number of rows, and [get_size] reports the number of columns
    first. *)
Theorem get_size_swaps_requested_size (pre : world) :
  ∃ st0, init (2, 3) None pre = Ok (tt, st0) ∧ get_size st0 = Ok ((3, 2), st0).
Proof.
  eexists. split; [apply (init_random_run pre 2 3)|].
  eapply (get_size_run _ _ 2 3); [|apply random_board_shape|lia].
  unfold board_is. simpl. rewrite lookup_app_r by lia. by rewrite Nat.sub_diag.
Qed.

(** C7, as the code has it.  Construction checks no dimension and knows no
    [InvalidDimensions].  With a grid supplied the requested size is not
    looked at: whatever the size and whatever the shape of the grid,
    construction succeeds and the grid becomes the live grid as it is,
    neither truncated nor padded, with a copy as initial board.  Without a
    grid the size [[0, 0]] is accepted and gives a board without cells, and
    a negative width or height, as far as a 64-bit integer goes, makes
    construction fail then and there with numpy's [ValueError]. *)
Theorem init_checks_no_dimensions (pre : world) :
  (∀ size l g, arrays pre !! l = Some g →
     ∃ st0, init size (Some l) pre = Ok (tt, st0) ∧
            board (self st0) = l ∧ fresh st0 g ∧
            (∀ l' a, arrays pre !! l' = Some a → arrays st0 !! l' = Some a)) ∧
  (∃ st0, init (0, 0) None pre = Ok (tt, st0) ∧ fresh st0 []) ∧
  (∀ r c, - 2 ^ 63 <= r < 2 ^ 63 → - 2 ^ 63 <= c < 2 ^ 63 → r < 0 ∨ c < 0 →
     init (r, c) None pre = Raise ValueError).
Proof.
  split; [|split].
  - intros size l g Hl. eexists. split; [by apply init_supplied_run|].
    apply lookup_lt_Some in Hl as Hlt.
    split; [done|]. split.
    + repeat split; unfold board_is; simpl.
      * by rewrite lookup_app_l.
      * rewrite lookup_app_r by lia. by rewrite Nat.sub_diag.
      * lia.
    + intros l' a Hl'. simpl. rewrite lookup_app_l; [done|]. by eapply lookup_lt_Some.
  - eexists. split; [apply (init_random_run pre 0 0)|].
    repeat split; unfold board_is; simpl.
    + rewrite lookup_app_r by lia. by rewrite Nat.sub_diag.
    + rewrite lookup_app_r by lia.
      by replace (S (length (arrays pre)) - length (arrays pre))%nat with 1%nat by lia.
    + lia.
  - intros r c _ _. apply init_negative.
Qed.

Lemma init_checks_no_dimensions_witness :
  (∃ st0, init (3, 3) (Some 0%nat) (world_of [[1; 0]]) = Ok (tt, st0) ∧
          board (self st0) = 0%nat ∧ fresh st0 [[1; 0]] ∧
          (∀ l' a, arrays (world_of [[1; 0]]) !! l' = Some a → arrays st0 !! l' = Some a)) ∧
  (∃ st0, init (0, 0) None (world_of [[1; 0]]) = Ok (tt, st0) ∧ fresh st0 []) ∧
  init (-1, 4) None (world_of [[1; 0]]) = Raise ValueError.
Proof.
  destruct (init_checks_no_dimensions (world_of [[1; 0]])) as (Hgrid & Hzero & Hneg).
  split; [|split].
  - apply (Hgrid (3, 3) 0%nat [[1; 0]]). reflexivity.
  - exact Hzero.
  - apply (Hneg (-1) 4); lia.
Defined.

(** Construction succeeds where C7 wants [InvalidDimensions]: with a
    supplied 1x2 grid for the requested size [[3, 3]], and with the size
    [[0, 0]]. *)
Lemma init_accepts_bad_dimensions :
  init (3, 3) (Some 0%nat) (world_of [[1; 0]])
  = Ok (tt, mkWorld [[[1; 0]]; [[1; 0]]] ∅ (λ _, 0) 0%nat (mkGameBoard [] 0%nat 1%nat)) ∧
  init (0, 0) None (world_of [[1; 0]])
  = Ok (tt, mkWorld [[[1; 0]]; []; []] ∅ (λ _, 0) 0%nat (mkGameBoard [] 1%nat 2%nat)).
Proof. split; reflexivity. Qed.

(** C9.  A grid of zeros and ones with at least one row and one column,
    written by [save_board] and read back by [read_board] from the file it
    wrote, comes back as an array with the same rows, columns and cells. *)
Theorem save_then_read_board
    (st : world) (l : loc) (g : ndarray) (h w : nat) (filename : string) :
  arrays st !! l = Some g → shape g h w → (1 ≤ h)%nat → (1 ≤ w)%nat → binary g →
  ∃ st1 st2 l', save_board l filename st = Ok (tt, st1) ∧
                read_board filename st1 = Ok (l', st2) ∧
                arrays st2 !! l' = Some g.
Proof.
  intros Hl Hshape _ _ Hbin.
  eexists. eexists. eexists.
  split; [by eapply save_board_run|]. split.
  - eapply read_board_run; [|done..]. simpl. apply lookup_insert_eq.
  - simpl. rewrite lookup_app_r by lia. by rewrite Nat.sub_diag.
Qed.

Lemma save_then_read_board_witness :
  ∃ st1 st2 l', save_board 0%nat "initial-board.txt" (world_of blinker5) = Ok (tt, st1) ∧
                read_board "initial-board.txt" st1 = Ok (l', st2) ∧
                arrays st2 !! l' = Some blinker5.
Proof.
  apply (save_then_read_board (world_of blinker5) 0%nat blinker5 5 5 "initial-board.txt");
    [reflexivity | exact blinker5_shape | lia | lia | exact blinker5_binary].
Defined.

(** The text written for the blinker. *)
Example rows_text_blinker5 :
  rows_text blinker5
  = "0 0 0 0 0 " +:+ String "010"%char
   ("0 0 0 0 0 " +:+ String "010"%char
   ("0 1 1 1 0 " +:+ String "010"%char
   ("0 0 0 0 0 " +:+ String "010"%char
   ("0 0 0 0 0 " +:+ String "010"%char EmptyString)))).
Proof. reflexivity. Qed.

(** * Further properties of the code *)

(** ** Coordinates *)

(** X1.  Coordinates inside the grid come back from [shift_positions] as
    they are, without a turn of any loop. *)
Theorem shift_positions_in_range (st : world) (g : ndarray) (h w fuel : nat) (x y : Z) :
  board_is st g → shape g h w →
  0 <= x < Z.of_nat w → 0 <= y < Z.of_nat h →
  shift_positions fuel x y st = Ok ((x, y), st).
Proof.
  intros Hboard Hshape Hx Hy.
  rewrite (shift_positions_run st g h w Hboard Hshape fuel x y);
    rewrite ?Z.div_small by lia; try (simpl; lia).
  by rewrite !Z.mod_small by lia.
Qed.

Lemma shift_positions_in_range_witness :
  shift_positions 0 3 4 (world_of blinker5) = Ok ((3, 4), world_of blinker5).
Proof.
  apply (shift_positions_in_range (world_of blinker5) blinker5 5 5 0 3 4);
    [reflexivity | exact blinker5_shape | lia | lia].
Defined.

Lemma while_stuck fuel (cond : Z → bool) (body : Z → Z) x :
  cond x = true → body x = x → while fuel cond body x = OutOfFuel.
Proof.
  intros Hcond Hbody. induction fuel as [|fuel IH]; simpl; rewrite Hcond; [done|].
  by rewrite Hbody.
Qed.

(** X2.  On a board with rows but no columns [shift_positions] never
    returns, whatever the coordinates: a loop adds or subtracts the width 0
    for ever. *)
Theorem shift_positions_without_columns (st : world) (g : ndarray) (h fuel : nat) (x y : Z) :
  board_is st g → shape g h 0 → (1 ≤ h)%nat →
  shift_positions fuel x y st = OutOfFuel.
Proof.
  intros Hboard Hshape Hh. unfold shift_positions.
  assert (Hsize : get_size st = Ok ((0, Z.of_nat h), st))
    by (apply (get_size_run st g h 0); [done..|lia]).
  erewrite bind_run by (rewrite (bind_run _ _ _ _ _ Hsize); reflexivity).
  erewrite bind_run by (rewrite (bind_run _ _ _ _ _ Hsize); reflexivity).
  simpl fst. simpl snd. unfold mbind, M_bind, lift.
  destruct (Z.ltb_spec x 0) as [Hx|Hx].
  - rewrite while_stuck; [done| |lia]. by apply Z.ltb_lt.
  - replace (while fuel (λ x, x <? 0) (λ x, x + 0) x) with (Ok (A:=Z) x).
    + rewrite while_stuck; [done| |lia]. by apply Z.leb_le.
    + destruct fuel; simpl; by destruct (Z.ltb_spec x 0); try lia.
Qed.

Lemma shift_positions_without_columns_witness :
  shift_positions 1000 3 0 (world_of [[]; []]) = OutOfFuel.
Proof.
  apply (shift_positions_without_columns (world_of [[]; []]) [[]; []] 2 1000 3 0);
    [reflexivity | split; [reflexivity | repeat constructor] | lia].
Defined.

(** X3.  A board made for the size [[0, n]] has no rows: construction
    succeeds and [tick] succeeds, recording a snapshot and leaving the empty
    grid, but [get_size] raises [IndexError] on [self.board[0]], and with it
    [shift_positions], [get_neighbors] and [update_cell]. *)
Theorem no_rows_index_error (pre : world) (n : Z) (fuel : nat) (x y : Z) :
  0 <= n →
  ∃ st0, init (0, n) None pre = Ok (tt, st0) ∧
         board_is st0 [] ∧
         get_size st0 = Raise IndexError ∧
         shift_positions fuel x y st0 = Raise IndexError ∧
         get_neighbors fuel x y st0 = Raise IndexError ∧
         update_cell fuel x y st0 = Raise IndexError ∧
         ∀ fuel', (1 ≤ fuel')%nat →
           ∃ st1, tick fuel' st0 = Ok (tt, st1) ∧ board_is st1 [] ∧
                  length (history (self st1)) = 1%nat.
Proof.
  intros Hn.
  set (st0 := mkWorld (arrays pre ++ [[]; []]) (files pre) (entropy pre) (drawn pre)
                (mkGameBoard [] (length (arrays pre)) (S (length (arrays pre))))).
  exists st0. split.
  { rewrite <- (Z2Nat.id n) by done. rewrite (init_random_run pre 0).
    unfold random_board. simpl. by rewrite Nat.add_0_r. }
  assert (Hboard : board_is st0 []).
  { unfold board_is, st0. simpl. rewrite lookup_app_r by lia. by rewrite Nat.sub_diag. }
  assert (Hsize : get_size st0 = Raise IndexError).
  { unfold get_size, board_len_row0, self_board, gets, load, mbind, M_bind.
    by rewrite Hboard. }
  assert (Hshift : ∀ i j, shift_positions fuel i j st0 = Raise IndexError).
  { intros i j. unfold shift_positions, mbind, M_bind. by rewrite Hsize. }
  assert (Hcount : get_neighbors fuel x y st0 = Raise IndexError).
  { unfold get_neighbors. simpl for_acc. unfold mbind, M_bind. by rewrite Hshift. }
  split; [done|]. split; [done|]. split; [apply Hshift|]. split; [done|]. split.
  { unfold update_cell, mbind, M_bind. by rewrite Hcount. }
  intros fuel' Hfuel'. exists (after_tick st0 []). split.
  - apply (tick_run st0 [] 0 0); [done|by split|done].
  - split; [apply after_tick_board|]. reflexivity.
Qed.

Lemma no_rows_index_error_witness :
  ∃ st0, init (0, 7) None (world_of blinker5) = Ok (tt, st0) ∧
         board_is st0 [] ∧
         get_size st0 = Raise IndexError ∧
         shift_positions 5 2 3 st0 = Raise IndexError ∧
         get_neighbors 5 2 3 st0 = Raise IndexError ∧
         update_cell 5 2 3 st0 = Raise IndexError ∧
         ∀ fuel', (1 ≤ fuel')%nat →
           ∃ st1, tick fuel' st0 = Ok (tt, st1) ∧ board_is st1 [] ∧
                  length (history (self st1)) = 1%nat.
Proof. apply (no_rows_index_error (world_of blinker5) 7 5 2 3). lia. Defined.

(** X4.  The count [get_neighbors] returns for a cell inside the grid lies
    between 0 and 8. *)
Theorem get_neighbors_bounds (st : world) (g : ndarray) (h w fuel : nat) (x y : Z) :
  board_is st g → shape g h w → (1 ≤ fuel)%nat →
  0 <= x < Z.of_nat w → 0 <= y < Z.of_nat h →
  ∃ n, get_neighbors fuel x y st = Ok (n, st) ∧ 0 <= n <= 8.
Proof.
  intros Hboard Hshape Hfuel Hx Hy. exists (Spec.count_neighbors g x y). split.
  - rewrite <- (neighbors_value_spec g h w) by done.
    by apply (get_neighbors_run st g h w).
  - unfold Spec.count_neighbors.
    match goal with |- context [filter ?P ?l] =>
      pose proof (length_filter P l) as Hle; rewrite length_map in Hle
    end.
    change (length Spec.moore) with 8%nat in Hle. lia.
Qed.

Lemma get_neighbors_bounds_witness :
  ∃ n, get_neighbors 1 4 0 (world_of blinker5) = Ok (n, world_of blinker5) ∧ 0 <= n <= 8.
Proof.
  apply (get_neighbors_bounds (world_of blinker5) blinker5 5 5 1 4 0);
    [reflexivity | exact blinker5_shape | lia | lia | lia].
Defined.

(** ** Cells outside the grid *)

Lemma abs_div_le (i w : Z) : 0 < w → Z.abs (i / w) <= Z.abs i.
Proof.
  intros Hw. destruct (Z.le_gt_cases 0 i) as [Hi|Hi].
  - assert (0 <= i / w) by (apply Z.div_pos; lia).
    assert (i / w <= i) by (apply Z.div_le_upper_bound; nia). lia.
  - assert (i / w < 0) by (apply Z.div_lt_upper_bound; lia).
    assert (i <= i / w) by (apply Z.div_le_lower_bound; nia). lia.
Qed.

(** The two loops of [get_neighbors], for any coordinates. *)
Lemma neighbors_loops_run st g h w fuel x y :
  board_is st g → shape g h w → (0 < h)%nat → (0 < w)%nat →
  (∀ i, i ∈ [x - 1; x; x + 1] → (Z.to_nat (Z.abs (i / Z.of_nat w)) ≤ fuel)%nat) →
  (∀ j, j ∈ [y - 1; y; y + 1] → (Z.to_nat (Z.abs (j / Z.of_nat h)) ≤ fuel)%nat) →
  for_acc [x - 1; x; x + 1] 0 (λ i n_neighbors,
    for_acc [y - 1; y; y + 1] n_neighbors (λ j n_neighbors,
      '(new_i, new_j) ← shift_positions fuel i j;
      c ← board_getitem new_j new_i;
      if c =? 1 then mret (n_neighbors + 1) else mret n_neighbors)) st
  = Ok (foldl (λ n i,
          foldl (λ n j, if wrapped g i j =? 1 then n + 1 else n) n [y - 1; y; y + 1])
          0 [x - 1; x; x + 1], st).
Proof.
  intros Hboard Hshape Hh Hw Hfx Hfy.
  apply (for_acc_pure (λ i n,
    foldl (λ n j, if wrapped g i j =? 1 then n + 1 else n) n [y - 1; y; y + 1])).
  intros i n Hi.
  apply (for_acc_pure (λ j n, if wrapped g i j =? 1 then n + 1 else n)).
  intros j n' Hj.
  erewrite bind_run by (eapply shift_positions_run; eauto).
  cbv beta iota.
  erewrite bind_run; last first.
  { eapply board_getitem_run; try done; apply Z.mod_pos_bound; lia. }
  unfold wrapped.
  rewrite (shape_width _ _ _ Hshape Hh), (shape_height _ _ _ Hshape).
  by destruct (_ =? 1).
Qed.

Lemma index_out_of_range n i :
  i < - Z.of_nat n ∨ Z.of_nat n <= i → index n i = None.
Proof.
  intros Hi. unfold index.
  destruct (Z.leb_spec 0 i), (Z.ltb_spec i (Z.of_nat n)),
           (Z.leb_spec (- Z.of_nat n) i), (Z.ltb_spec i 0); simpl; try done; lia.
Qed.

Lemma index_negative n i :
  - Z.of_nat n <= i < 0 → index n i = Some (Z.to_nat (i + Z.of_nat n)).
Proof.
  intros Hi. unfold index.
  destruct (Z.leb_spec 0 i), (Z.ltb_spec i (Z.of_nat n)),
           (Z.leb_spec (- Z.of_nat n) i), (Z.ltb_spec i 0); simpl; try done; lia.
Qed.

Lemma getitem_out_of_range g h w x y :
  shape g h w →
  x < - Z.of_nat w ∨ Z.of_nat w <= x ∨ y < - Z.of_nat h ∨ Z.of_nat h <= y →
  getitem g y x = Raise IndexError.
Proof.
  intros Hshape Hout. unfold getitem.
  destruct (index (length g) y) as [r|] eqn:Hr; [|done].
  destruct (g !! r) as [row|] eqn:Hrow; [|done].
  rewrite (shape_lookup _ _ _ _ _ Hshape Hrow).
  rewrite index_out_of_range; [done|].
  destruct Hout as [?|[?|Hy]]; [lia..|].
  rewrite index_out_of_range in Hr; [done|]. rewrite (proj1 Hshape). lia.
Qed.

(** numpy's reading of an index that may be negative. *)
Lemma getitem_wrapped g h w x y :
  shape g h w →
  - Z.of_nat w <= x < Z.of_nat w → - Z.of_nat h <= y < Z.of_nat h →
  getitem g y x = Ok (cell g (x mod Z.of_nat w) (y mod Z.of_nat h)).
Proof.
  intros Hshape Hx Hy.
  assert (Hmod : ∀ n i, - Z.of_nat n <= i < Z.of_nat n →
            index n i = Some (Z.to_nat (i mod Z.of_nat n)) ∧ 0 <= i mod Z.of_nat n < Z.of_nat n).
  { intros n i Hi. split; [|apply Z.mod_pos_bound; lia].
    destruct (Z.le_gt_cases 0 i).
    - rewrite index_in_range by lia. by rewrite Z.mod_small by lia.
    - rewrite index_negative by lia. f_equal. f_equal.
      apply (Z.mod_unique _ _ (-1)); lia. }
  destruct (Hmod h y Hy) as [Hiy Hry]. destruct (Hmod w x Hx) as [Hix Hrx].
  rewrite <- (getitem_cell g h w) by done.
  unfold getitem. rewrite (proj1 Hshape), Hiy.
  rewrite index_in_range by lia.
  destruct (g !! Z.to_nat (y mod Z.of_nat h)) as [row|] eqn:Hrow; [|done].
  rewrite (shape_lookup _ _ _ _ _ Hshape Hrow), Hix.
  by rewrite index_in_range by lia.
Qed.

(** X5.  Only the neighbours are wrapped round the torus: for a coordinate
    that is not a valid numpy index of the grid, at or beyond the dimension
    or below its negative, [get_neighbors] and [update_cell] raise
    [IndexError] when they read the cell itself. *)
Theorem get_neighbors_index_error (st : world) (g : ndarray) (h w : nat) (x y : Z) :
  board_is st g → shape g h w → (1 ≤ h)%nat → (1 ≤ w)%nat →
  x < - Z.of_nat w ∨ Z.of_nat w <= x ∨ y < - Z.of_nat h ∨ Z.of_nat h <= y →
  ∃ n, ∀ fuel, (n ≤ fuel)%nat →
    get_neighbors fuel x y st = Raise IndexError ∧
    update_cell fuel x y st = Raise IndexError.
Proof.
  intros Hboard Hshape Hh Hw Hout.
  exists (Z.to_nat (Z.abs x + Z.abs y + 1)). intros fuel Hfuel.
  assert (Hcount : get_neighbors fuel x y st = Raise IndexError).
  { unfold get_neighbors.
    erewrite bind_run; last first.
    { apply (neighbors_loops_run st g h w); [done|done|lia|lia|..].
      - intros i Hi. pose proof (abs_div_le i (Z.of_nat w)).
        repeat (apply elem_of_cons in Hi as [->|Hi]; [lia|]). by apply elem_of_nil in Hi.
      - intros j Hj. pose proof (abs_div_le j (Z.of_nat h)).
        repeat (apply elem_of_cons in Hj as [->|Hj]; [lia|]). by apply elem_of_nil in Hj. }
    unfold board_getitem, self_board, gets, getitem_at, load, mbind, M_bind, lift.
    rewrite Hboard. by rewrite (getitem_out_of_range g h w). }
  split; [done|]. unfold update_cell, mbind, M_bind. by rewrite Hcount.
Qed.

Lemma get_neighbors_index_error_witness :
  ∃ n, ∀ fuel, (n ≤ fuel)%nat →
    get_neighbors fuel 5 2 (world_of blinker5) = Raise IndexError ∧
    update_cell fuel 5 2 (world_of blinker5) = Raise IndexError.
Proof.
  apply (get_neighbors_index_error (world_of blinker5) blinker5 5 5 5 2);
    [reflexivity | exact blinker5_shape | lia | lia | lia].
Defined.

Lemma wrapped_mod g h w i j :
  shape g h w → (0 < h)%nat →
  wrapped g (i mod Z.of_nat w) (j mod Z.of_nat h) = wrapped g i j.
Proof.
  intros Hshape Hh. unfold wrapped.
  rewrite (shape_width _ _ _ Hshape Hh), (shape_height _ _ _ Hshape).
  by rewrite !Z.mod_mod_opp_r || rewrite !Zmod_mod.
Qed.

(** X6.  A negative coordinate that numpy accepts as an index counts from
    the far edge: for [-width <= x < width] and [-height <= y < height],
    [get_neighbors] and [update_cell] answer as they do for the cell
    [(x mod width, y mod height)]. *)
Theorem negative_coordinates_wrap (st : world) (g : ndarray) (h w fuel : nat) (x y : Z) :
  board_is st g → shape g h w → (2 ≤ fuel)%nat →
  - Z.of_nat w <= x < Z.of_nat w → - Z.of_nat h <= y < Z.of_nat h →
  get_neighbors fuel x y st
    = Ok (Spec.count_neighbors g (x mod Z.of_nat w) (y mod Z.of_nat h), st) ∧
  get_neighbors fuel x y st = get_neighbors fuel (x mod Z.of_nat w) (y mod Z.of_nat h) st ∧
  update_cell fuel x y st = update_cell fuel (x mod Z.of_nat w) (y mod Z.of_nat h) st.
Proof.
  intros Hboard Hshape Hfuel Hx Hy.
  assert (Hh : (0 < h)%nat) by lia. assert (Hw : (0 < w)%nat) by lia.
  pose proof (Z.mod_pos_bound x (Z.of_nat w)) as Hxm.
  pose proof (Z.mod_pos_bound y (Z.of_nat h)) as Hym.
  assert (Hread : board_getitem y x st
                  = Ok (cell g (x mod Z.of_nat w) (y mod Z.of_nat h), st)).
  { unfold board_getitem, self_board, gets, getitem_at, load, mbind, M_bind.
    rewrite Hboard. apply lift_run. by apply getitem_wrapped. }
  assert (Hcount : get_neighbors fuel x y st
                   = Ok (neighbors_value g (x mod Z.of_nat w) (y mod Z.of_nat h), st)).
  { unfold get_neighbors.
    erewrite bind_run; last first.
    { apply (neighbors_loops_run st g h w); [done..| |].
      - intros i Hi.
        assert (-2 <= i / Z.of_nat w < 2); [|lia].
        repeat (apply elem_of_cons in Hi as [->|Hi];
                [split; [apply Z.div_le_lower_bound|apply Z.div_lt_upper_bound]; lia|]).
        by apply elem_of_nil in Hi.
      - intros j Hj.
        assert (-2 <= j / Z.of_nat h < 2); [|lia].
        repeat (apply elem_of_cons in Hj as [->|Hj];
                [split; [apply Z.div_le_lower_bound|apply Z.div_lt_upper_bound]; lia|]).
        by apply elem_of_nil in Hj. }
    rewrite (bind_run _ _ _ _ _ Hread). unfold neighbors_value. cbn [foldl].
    rewrite <- !(wrapped_mod g h w (x mod Z.of_nat w - 1)),
            <- !(wrapped_mod g h w (x mod Z.of_nat w)),
            <- !(wrapped_mod g h w (x mod Z.of_nat w + 1)) by done.
    rewrite <- !(wrapped_mod g h w (x - 1)), <- !(wrapped_mod g h w x),
            <- !(wrapped_mod g h w (x + 1)) by done.
    rewrite !Zminus_mod_idemp_l, !Zplus_mod_idemp_l, !Zmod_mod.
    by destruct (_ =? 1). }
  assert (Hcount' : get_neighbors fuel (x mod Z.of_nat w) (y mod Z.of_nat h) st
                    = Ok (neighbors_value g (x mod Z.of_nat w) (y mod Z.of_nat h), st)).
  { apply (get_neighbors_run st g h w); [done|done|lia|lia|lia]. }
  split; [|split].
  - rewrite Hcount. f_equal. f_equal. apply (neighbors_value_spec g h w); [done|lia..].
  - by rewrite Hcount, Hcount'.
  - unfold update_cell. rewrite (bind_run _ _ _ _ _ Hcount), (bind_run _ _ _ _ _ Hcount').
    rewrite (bind_run _ _ _ _ _ Hread).
    erewrite (bind_run (board_getitem _ _))
      by (apply (board_getitem_run st g h w); [done|done|lia|lia]).
    assert (Hread' : board_getitem (y mod Z.of_nat h) (x mod Z.of_nat w) st
                     = Ok (cell g (x mod Z.of_nat w) (y mod Z.of_nat h), st))
      by (apply (board_getitem_run st g h w); [done|done|lia|lia]).
    destruct (_ =? 0); [destruct (_ =? 3)|destruct (_ || _)]; try done;
      by rewrite Hread, Hread'.
Qed.

Lemma negative_coordinates_wrap_witness :
  get_neighbors 2 (-1) (-3) (world_of blinker5)
    = Ok (Spec.count_neighbors blinker5 (-1 mod 5) (-3 mod 5), world_of blinker5) ∧
  get_neighbors 2 (-1) (-3) (world_of blinker5)
    = get_neighbors 2 (-1 mod 5) (-3 mod 5) (world_of blinker5) ∧
  update_cell 2 (-1) (-3) (world_of blinker5)
    = update_cell 2 (-1 mod 5) (-3 mod 5) (world_of blinker5).
Proof.
  apply (negative_coordinates_wrap (world_of blinker5) blinker5 5 5 2 (-1) (-3));
    [reflexivity | exact blinker5_shape | lia | lia | lia].
Defined.

(** ** Ticks on any grid *)

Lemma cell_next_board g h w (x y : Z) :
  shape g h w → 0 <= x < Z.of_nat w → 0 <= y < Z.of_nat h →
  cell (next_board g) x y = update_value g x y.
Proof.
  intros Hshape Hx Hy. unfold cell at 1. unfold next_board.
  destruct (lookup_lt_is_Some_2 g (Z.to_nat y)) as [row Hrow];
    [rewrite (proj1 Hshape); lia|].
  pose proof (shape_lookup _ _ _ _ _ Hshape Hrow) as Hlen.
  destruct (lookup_lt_is_Some_2 row (Z.to_nat x)) as [c Hc]; [lia|].
  rewrite list_lookup_imap, Hrow. simpl.
  rewrite list_lookup_imap, Hc. simpl. by rewrite !Z2Nat.id by lia.
Qed.

(** X7.  On any rectangular grid of integers [tick] succeeds, keeps the
    dimensions, and gives each cell this value: a cell holding 0 becomes 1
    with exactly three neighbours equal to 1 and stays 0 otherwise; a cell
    holding anything else, 1 or not, becomes 0 with fewer than two or more
    than three such neighbours and keeps its value otherwise.  A value that
    is neither 0 nor 1 is thus never counted as a neighbour but survives like
    a living cell. *)
Theorem tick_on_any_grid (st : world) (g : ndarray) (h w fuel : nat) :
  board_is st g → shape g h w → (1 ≤ fuel)%nat →
  ∃ st' g', tick fuel st = Ok (tt, st') ∧ board_is st' g' ∧ shape g' h w ∧
    ∀ x y, 0 <= x < Z.of_nat w → 0 <= y < Z.of_nat h →
      cell g' x y =
        let n := Spec.count_neighbors g x y in
        if cell g x y =? 0 then (if n =? 3 then 1 else 0)
        else (if (n <? 2) || (3 <? n) then 0 else cell g x y).
Proof.
  intros Hboard Hshape Hfuel.
  exists (after_tick st g), (next_board g).
  split; [by apply (tick_run st g h w)|].
  split; [apply after_tick_board|]. split; [by apply next_board_shape|].
  intros x y Hx Hy. rewrite (cell_next_board g h w) by done.
  unfold update_value. rewrite (neighbors_value_spec g h w) by done. simpl.
  destruct (Z.eqb_spec (cell g x y) 0) as [->|]; done.
Qed.

Lemma tick_on_any_grid_witness :
  ∃ st' g', tick 1 (world_of [[2; 1; 1]; [0; 0; 7]]) = Ok (tt, st') ∧
    board_is st' g' ∧ shape g' 2 3 ∧
    ∀ x y, 0 <= x < 3 → 0 <= y < 2 →
      cell g' x y =
        let n := Spec.count_neighbors [[2; 1; 1]; [0; 0; 7]] x y in
        if cell [[2; 1; 1]; [0; 0; 7]] x y =? 0 then (if n =? 3 then 1 else 0)
        else (if (n <? 2) || (3 <? n) then 0
              else cell [[2; 1; 1]; [0; 0; 7]] x y).
Proof.
  apply (tick_on_any_grid (world_of [[2; 1; 1]; [0; 0; 7]]) [[2; 1; 1]; [0; 0; 7]] 2 3 1);
    [reflexivity | split; [reflexivity | repeat constructor] | lia].
Defined.

Lemma generation_shape g h w k : shape g h w → shape (generation g k) h w.
Proof.
  intros Hshape. induction k as [|k IH]; [done|]. by apply next_board_shape in IH.
Qed.

Lemma after_ticks_frame st g k :
  files (after_ticks st g k) = files st ∧
  entropy (after_ticks st g k) = entropy st ∧
  drawn (after_ticks st g k) = drawn st.
Proof.
  revert st g. induction k as [|k IH]; intros st g; simpl; [done|].
  destruct (IH (after_tick st g) (next_board g)) as (Hfiles & Hent & Hdrawn).
  by rewrite Hfiles, Hent, Hdrawn.
Qed.

(** Every snapshot is an array of its own: a tick appends a new address to
    the history and makes another new one the live grid, so no address is
    ever held twice. *)
Lemma after_ticks_apart st g k :
  NoDup (history (self st)) →
  Forall (λ l, (l < length (arrays st))%nat) (history (self st)) →
  (board (self st) < length (arrays st))%nat →
  (initial_board (self st) < length (arrays st))%nat →
  initial_board (self st) ≠ board (self st) →
  board (self st) ∉ history (self st) →
  initial_board (self st) ∉ history (self st) →
  NoDup (history (self (after_ticks st g k))) ∧
  (board (self (after_ticks st g k)) ∉ history (self (after_ticks st g k))) ∧
  (initial_board (self (after_ticks st g k)) ∉ history (self (after_ticks st g k))) ∧
  initial_board (self (after_ticks st g k)) ≠ board (self (after_ticks st g k)).
Proof.
  revert st g. induction k as [|k IH]; intros st g Hnd Hall Hb Hi Hib Hbh Hih; [done|].
  simpl. rewrite Forall_forall in Hall.
  apply IH; unfold after_tick; simpl; rewrite ?length_app; simpl.
  - apply NoDup_app. split; [done|]. split; [|apply NoDup_singleton].
    intros l Hl Hl'. apply list_elem_of_singleton in Hl'. apply Hall in Hl. lia.
  - apply Forall_app. split.
    + apply Forall_forall. intros l Hl. apply Hall in Hl. lia.
    + apply Forall_singleton. lia.
  - lia.
  - lia.
  - lia.
  - intros Hin. apply elem_of_app in Hin as [Hin|Hin].
    + apply Hall in Hin. lia.
    + apply list_elem_of_singleton in Hin. lia.
  - intros Hin. apply elem_of_app in Hin as [Hin|Hin]; [done|].
    apply list_elem_of_singleton in Hin. lia.
Qed.

(** X8.  Any number of ticks, on any rectangular board, leaves the
    dimensions as they were: with at least one row [get_size] returns the
    same list afterwards. *)
Theorem ticks_keep_size (st : world) (g : ndarray) (h w fuel k : nat) :
  board_is st g → shape g h w → (1 ≤ h)%nat → (1 ≤ fuel)%nat →
  ∃ stk gk, ticks fuel k st = Ok (tt, stk) ∧ board_is stk gk ∧ shape gk h w ∧
            get_size st = Ok ((Z.of_nat w, Z.of_nat h), st) ∧
            get_size stk = Ok ((Z.of_nat w, Z.of_nat h), stk).
Proof.
  intros Hboard Hshape Hh Hfuel.
  exists (after_ticks st g k), (generation g k).
  split; [by eapply ticks_run|]. split; [by apply after_ticks_board|].
  split; [by apply generation_shape|].
  split; [apply (get_size_run st g h w); [done|done|lia]|].
  apply (get_size_after_ticks st g h w); [done|done|lia].
Qed.

Lemma ticks_keep_size_witness :
  ∃ stk gk, ticks 1 4 (world_of blinker5) = Ok (tt, stk) ∧ board_is stk gk ∧
            shape gk 5 5 ∧
            get_size (world_of blinker5) = Ok ((Z.of_nat 5, Z.of_nat 5), world_of blinker5) ∧
            get_size stk = Ok ((Z.of_nat 5, Z.of_nat 5), stk).
Proof.
  apply (ticks_keep_size (world_of blinker5) blinker5 5 5 1 4);
    [reflexivity | exact blinker5_shape | lia | lia].
Defined.

(** X9.  The snapshots stay apart.  After [k] ticks on a board as
    construction leaves it, the history holds [k] snapshots that are [k]
    different arrays, none of them the live grid and none the initial
    board, which are two different arrays as well: writing to one of them
    changes no other.  Ticks draw no random number and touch no file. *)
Theorem ticks_keep_snapshots_apart (st : world) (g : ndarray) (h w fuel k : nat) :
  fresh st g → shape g h w → (1 ≤ fuel)%nat →
  ∃ stk, ticks fuel k st = Ok (tt, stk) ∧
         length (history (self stk)) = k ∧
         NoDup (history (self stk)) ∧
         (board (self stk) ∉ history (self stk)) ∧
         (initial_board (self stk) ∉ history (self stk)) ∧
         initial_board (self stk) ≠ board (self stk) ∧
         files stk = files st ∧ entropy stk = entropy st ∧ drawn stk = drawn st.
Proof.
  intros (Hhist & Hboard & Hinit & Hne) Hshape Hfuel. exists (after_ticks st g k).
  split; [by eapply ticks_run|]. split.
  { destruct (after_ticks_history st g k) as (new & -> & <-). by rewrite Hhist. }
  destruct (after_ticks_apart st g k) as (Hnd & Hb & Hi & Hib).
  - rewrite Hhist. apply NoDup_nil_2.
  - rewrite Hhist. apply Forall_nil_2.
  - by eapply lookup_lt_Some.
  - by eapply lookup_lt_Some.
  - done.
  - rewrite Hhist. apply not_elem_of_nil.
  - rewrite Hhist. apply not_elem_of_nil.
  - repeat (split; [done|]). apply after_ticks_frame.
Qed.

Lemma ticks_keep_snapshots_apart_witness :
  ∃ stk, ticks 1 3 fresh_blinker5 = Ok (tt, stk) ∧
         length (history (self stk)) = 3%nat ∧
         NoDup (history (self stk)) ∧
         (board (self stk) ∉ history (self stk)) ∧
         (initial_board (self stk) ∉ history (self stk)) ∧
         initial_board (self stk) ≠ board (self stk) ∧
         files stk = files fresh_blinker5 ∧ entropy stk = entropy fresh_blinker5 ∧
         drawn stk = drawn fresh_blinker5.
Proof.
  apply (ticks_keep_snapshots_apart fresh_blinker5 blinker5 5 5 1 3);
    [repeat split; simpl; lia | exact blinker5_shape | lia].
Defined.

Lemma cell_zeros (rows cols : nat) (x y : Z) :
  cell (replicate rows (replicate cols 0)) x y = 0.
Proof.
  unfold cell.
  destruct (replicate rows (replicate cols 0) !! Z.to_nat y) as [row|] eqn:Hrow; [|done].
  apply lookup_replicate in Hrow as [-> _]. simpl.
  destruct (replicate cols 0 !! Z.to_nat x) as [c|] eqn:Hc; [|done].
  by apply lookup_replicate in Hc as [-> _].
Qed.

Lemma next_board_zeros (rows cols : nat) :
  next_board (replicate rows (replicate cols 0)) = replicate rows (replicate cols 0).
Proof.
  unfold next_board.
  etrans; [|apply (imap_same (replicate rows (replicate cols 0)))].
  apply imap_ext. intros j row Hrow. etrans; [|apply (imap_same row)].
  apply imap_ext. intros i c Hc.
  apply lookup_replicate in Hrow as [-> _]. apply lookup_replicate in Hc as [-> _].
  unfold update_value, neighbors_value, wrapped. cbn [foldl].
  rewrite !cell_zeros. reflexivity.
Qed.

(** X10.  Nothing comes from nothing: a board whose cells are all dead is
    still all dead after any number of ticks. *)
Theorem dead_board_stays_dead (st : world) (rows cols fuel k : nat) :
  board_is st (replicate rows (replicate cols 0)) → (1 ≤ fuel)%nat →
  ∃ stk, ticks fuel k st = Ok (tt, stk) ∧
         board_is stk (replicate rows (replicate cols 0)).
Proof.
  intros Hboard Hfuel.
  exists (after_ticks st (replicate rows (replicate cols 0)) k).
  split; [eapply ticks_run; [done|apply zeros_shape|done]|].
  replace (replicate rows (replicate cols 0))
    with (generation (replicate rows (replicate cols 0)) k) at 2.
  - by apply after_ticks_board.
  - induction k as [|k IH]; [done|].
    unfold generation in *. simpl. by rewrite IH, next_board_zeros.
Qed.

Lemma dead_board_stays_dead_witness :
  ∃ stk, ticks 1 5 (world_of (replicate 3 (replicate 4 0))) = Ok (tt, stk) ∧
         board_is stk (replicate 3 (replicate 4 0)).
Proof.
  apply (dead_board_stays_dead (world_of (replicate 3 (replicate 4 0))) 3 4 1 5);
    [reflexivity | lia].
Defined.

(** ** The supplied board and the random board *)

Lemma setitem_in_range g h w (j i v : Z) :
  shape g h w → 0 <= j < Z.of_nat h → 0 <= i < Z.of_nat w →
  ∃ g', setitem g j i v = Ok g' ∧ shape g' h w ∧ cell g' i j = v.
Proof.
  intros Hshape Hj Hi. unfold setitem.
  rewrite index_in_range by (rewrite (proj1 Hshape); lia).
  destruct (lookup_lt_is_Some_2 g (Z.to_nat j)) as [row Hrow];
    [rewrite (proj1 Hshape); lia|].
  pose proof (shape_lookup _ _ _ _ _ Hshape Hrow) as Hlen.
  rewrite Hrow, index_in_range by lia.
  eexists. split; [reflexivity|]. split.
  - destruct Hshape as [Hlength Hrows]. split; [by rewrite length_insert|].
    apply Forall_insert; [done|]. by rewrite length_insert.
  - unfold cell. rewrite list_lookup_insert_eq by (rewrite (proj1 Hshape); lia).
    simpl. by rewrite list_lookup_insert_eq by lia.
Qed.

(** X11.  [GameBoard(size, board)] does not copy the array it is given:
    [get_board] returns that very array, so a later write [board[j, i] = v]
    by the caller changes the live grid, while the initial board, a copy,
    keeps the contents of construction time.  The first tick ends the
    sharing: the live grid is then another array and the supplied one keeps
    what it held. *)
Theorem supplied_board_is_shared
    (pre : world) (size : Z * Z) (l : loc) (g : ndarray) (h w fuel : nat) (j i v : Z) :
  arrays pre !! l = Some g → shape g h w → (1 ≤ fuel)%nat →
  0 <= j < Z.of_nat h → 0 <= i < Z.of_nat w →
  ∃ st0, init size (Some l) pre = Ok (tt, st0) ∧
         get_board st0 = Ok (l, st0) ∧
         (∃ st1 g', setitem_at l j i v st0 = Ok (tt, st1) ∧
                    board_is st1 g' ∧ cell g' i j = v ∧
                    arrays st1 !! initial_board (self st1) = Some g) ∧
         (∃ st2, tick fuel st0 = Ok (tt, st2) ∧
                 board (self st2) ≠ l ∧ arrays st2 !! l = Some g).
Proof.
  intros Hl Hshape Hfuel Hj Hi.
  pose proof (lookup_lt_Some _ _ _ Hl) as Hlt.
  eexists. split; [by apply init_supplied_run|].
  match goal with |- get_board ?s = _ ∧ _ => set (st0 := s) end.
  assert (Hboard : board_is st0 g) by (unfold board_is, st0; simpl; by rewrite lookup_app_l).
  split; [done|]. split.
  - destruct (setitem_in_range g h w j i v Hshape Hj Hi) as (g' & Hset & _ & Hcell).
    eexists. exists g'. split; [by eapply setitem_at_run|].
    unfold board_is, st0. simpl.
    split; [by rewrite list_lookup_insert_eq by (rewrite length_app; simpl; lia)|].
    split; [done|].
    rewrite list_lookup_insert_ne by lia.
    rewrite lookup_app_r by lia. by rewrite Nat.sub_diag.
  - exists (after_tick st0 g). split; [by apply (tick_run st0 g h w)|].
    split.
    + unfold st0. simpl. rewrite length_app. simpl. lia.
    + by apply after_tick_arrays.
Qed.

Lemma supplied_board_is_shared_witness :
  ∃ st0, init (9, 9) (Some 0%nat) (world_of blinker5) = Ok (tt, st0) ∧
         get_board st0 = Ok (0%nat, st0) ∧
         (∃ st1 g', setitem_at 0%nat 0 4 1 st0 = Ok (tt, st1) ∧
                    board_is st1 g' ∧ cell g' 4 0 = 1 ∧
                    arrays st1 !! initial_board (self st1) = Some blinker5) ∧
         (∃ st2, tick 1 st0 = Ok (tt, st2) ∧
                 board (self st2) ≠ 0%nat ∧ arrays st2 !! 0%nat = Some blinker5).
Proof.
  apply (supplied_board_is_shared (world_of blinker5) (9, 9) 0%nat blinker5 5 5 1 0 4 1);
    [reflexivity | exact blinker5_shape | lia | lia | lia].
Defined.

Lemma cell_random_board e d rows cols (i j : nat) :
  (i < cols)%nat → (j < rows)%nat →
  cell (random_board e d rows cols) (Z.of_nat i) (Z.of_nat j) = random_cell e d cols i j.
Proof.
  intros Hi Hj. unfold cell, random_board. rewrite !Nat2Z.id.
  rewrite list_lookup_imap, lookup_replicate_2 by done. simpl.
  by rewrite list_lookup_imap, lookup_replicate_2 by done.
Qed.

(** X12.  For non-negative sizes [make_random_board] returns a new array of
    [size[0]] rows and [size[1]] columns, draws exactly one number per cell,
    row after row, and makes a cell 1 exactly when its number is at most the
    spawn chance 0.2, 0 otherwise; it changes neither the object nor any
    file nor any array that existed. *)
Theorem make_random_board_draws (st : world) (rows cols : nat) :
  ∃ st' g, make_random_board (Z.of_nat rows, Z.of_nat cols) st
             = Ok (length (arrays st), st') ∧
           arrays st' = arrays st ++ [g] ∧ shape g rows cols ∧
           drawn st' = (drawn st + rows * cols)%nat ∧
           entropy st' = entropy st ∧ self st' = self st ∧ files st' = files st ∧
           ∀ i j : nat, (i < cols)%nat → (j < rows)%nat →
             cell g (Z.of_nat i) (Z.of_nat j)
             = if le_spawn_chance (entropy st (drawn st + j * cols + i)%nat) then 1 else 0.
Proof.
  eexists. exists (random_board (entropy st) (drawn st) rows cols).
  split; [apply make_random_board_run|]. simpl.
  split; [done|]. split; [apply random_board_shape|].
  repeat split. intros i j Hi Hj. by rewrite cell_random_board.
Qed.

(** ** Integers as text *)

Lemma digit_value_char (k : Z) :
  0 <= k < 10 →
  Str.digit_value (Str.digit_char k) = Some k ∧
  Str.isspace (Str.digit_char k) = false ∧
  Ascii.eqb (Str.digit_char k) "-"%char = false ∧
  Ascii.eqb (Str.digit_char k) "+"%char = false.
Proof.
  intros Hk.
  assert (k = 0 ∨ k = 1 ∨ k = 2 ∨ k = 3 ∨ k = 4 ∨ k = 5 ∨ k = 6 ∨ k = 7 ∨ k = 8 ∨ k = 9)
    as Hcases by lia.
  repeat (destruct Hcases as [-> | Hcases]; [by vm_compute|]). subst. by vm_compute.
Qed.

Lemma digits_as_list (fuel : nat) (n : Z) :
  0 <= n → (1 ≤ fuel)%nat → n <= Z.of_nat fuel →
  ∃ ks, ks ≠ [] ∧ Forall (λ k, 0 <= k < 10) ks ∧
        foldl (λ a k, 10 * a + k) 0 ks = n ∧
        ∀ acc, Str.digits fuel n acc = digits_text ks +:+ acc.
Proof.
  revert n. induction fuel as [|fuel IH]; intros n Hn Hfuel Hle; [lia|].
  pose proof (Z.mod_pos_bound n 10) as Hmod.
  destruct (Z.ltb_spec n 10) as [Hlt|Hge].
  - exists [n]. split; [done|]. split; [repeat constructor; lia|].
    split; [simpl; lia|]. intros acc. simpl. destruct (Z.ltb_spec n 10); [|lia].
    by rewrite Z.mod_small by lia.
  - destruct (IH (n / 10)) as (ks & Hne & Hks & Hval & Hdigits).
    + apply Z.div_pos; lia.
    + lia.
    + assert (n / 10 < n) by (apply Z.div_lt; lia). lia.
    + exists (ks ++ [n mod 10]). split; [|split; [|split]].
      * by destruct ks.
      * apply Forall_app. split; [done|]. repeat constructor; lia.
      * rewrite foldl_app. simpl. rewrite Hval.
        pose proof (Z.div_mod n 10). lia.
      * intros acc. simpl. destruct (Z.ltb_spec n 10); [lia|].
        rewrite Hdigits. unfold digits_text. rewrite foldr_app. simpl.
        generalize (Str.digit_char (n mod 10)). intros c.
        clear. induction ks as [|k ks IH]; simpl; [done|]. by rewrite IH.
Qed.

Lemma no_space_digits_text ks :
  Forall (λ k, 0 <= k < 10) ks → no_space (digits_text ks) = true.
Proof.
  induction 1 as [|k ks Hk _ IH]; simpl; [done|].
  destruct (digit_value_char k Hk) as (_ & -> & _). by rewrite IH.
Qed.

Lemma int_digits_text ks rest a flag :
  Forall (λ k, 0 <= k < 10) ks → ks ≠ [] →
  Str.int_digits (digits_text ks +:+ rest) a flag
  = Str.int_digits rest (foldl (λ a k, 10 * a + k) a ks) true.
Proof.
  intros Hks. revert a flag. induction Hks as [|k ks Hk _ IH]; intros a flag Hne; [done|].
  simpl. destruct (digit_value_char k Hk) as (-> & _).
  destruct ks as [|k' ks']; [done|]. by apply IH.
Qed.

(** [str] writes a word, and [int] reads the number back from it. *)
Lemma str_word (n : Z) : Str.str n ≠ EmptyString ∧ no_space (Str.str n) = true.
Proof.
  unfold Str.str. destruct (Z.ltb_spec n 0) as [Hneg|Hpos].
  - destruct (digits_as_list (Z.to_nat (- n)) (- n)) as (ks & Hne & Hks & _ & ->);
      [lia..|].
    split; [done|]. rewrite append_nil_r. simpl. by apply no_space_digits_text.
  - destruct (digits_as_list (S (Z.to_nat n)) n) as (ks & Hne & Hks & _ & ->); [lia..|].
    rewrite append_nil_r. split; [|by apply no_space_digits_text].
    destruct ks; [done|]. done.
Qed.

Lemma int_str (n : Z) : Str.int (Str.str n) = Ok n.
Proof.
  unfold Str.str. destruct (Z.ltb_spec n 0) as [Hneg|Hpos].
  - destruct (digits_as_list (Z.to_nat (- n)) (- n)) as (ks & Hne & Hks & Hval & ->);
      [lia..|].
    unfold Str.int. rewrite int_digits_text by done. simpl.
    rewrite Hval. simpl. f_equal. lia.
  - destruct (digits_as_list (S (Z.to_nat n)) n) as (ks & Hne & Hks & Hval & ->); [lia..|].
    destruct ks as [|k ks]; [done|].
    apply Forall_cons in Hks as Hk. destruct Hk as [Hk _].
    destruct (digit_value_char k Hk) as (_ & _ & Hminus & Hplus).
    assert (Hint : ∀ c s, Ascii.eqb c "-"%char = false → Ascii.eqb c "+"%char = false →
              Str.int (String c s)
              = match Str.int_digits (String c s) 0 false with
                | Some m => Ok m | None => Raise ValueError end).
    { intros c s Hm Hp. unfold Str.int.
      destruct c as [[] [] [] [] [] [] [] []]; try done. }
    simpl digits_text. rewrite append_nil_r.
    change (String (Str.digit_char k) (digits_text ks)) with (digits_text (k :: ks)).
    simpl digits_text. rewrite Hint by done.
    change (String (Str.digit_char k) (digits_text ks)) with (digits_text (k :: ks)).
    rewrite <- (append_nil_r (digits_text (k :: ks))).
    rewrite int_digits_text by done. by rewrite Hval.
Qed.

(** ** Words, lines and rows of any integers *)

Lemma no_space_char c :
  Str.isspace c = false →
  Ascii.eqb c "013"%char = false ∧ Ascii.eqb c "010"%char = false.
Proof.
  intros Hc. split.
  - destruct (Ascii.eqb_spec c "013"%char) as [->|]; [by vm_compute in Hc|done].
  - destruct (Ascii.eqb_spec c "010"%char) as [->|]; [by vm_compute in Hc|done].
Qed.

Lemma no_space_cons c s :
  no_space (String c s) = true → Str.isspace c = false ∧ no_space s = true.
Proof. simpl. intros [Hc Hs]%andb_prop. by apply negb_true_iff in Hc. Qed.

Lemma newlines_word t rest :
  no_space t = true →
  Str.universal_newlines (t +:+ rest) = t +:+ Str.universal_newlines rest.
Proof.
  induction t as [|c t IH]; [done|]. intros [Hc Ht]%no_space_cons.
  destruct (no_space_char c Hc) as [Hcr _]. simpl. by rewrite Hcr, IH.
Qed.

Lemma lines_from_word t rest line :
  no_space t = true →
  Str.lines_from (t +:+ rest) line = Str.lines_from rest (line +:+ t).
Proof.
  revert line. induction t as [|c t IH]; intros line.
  - by rewrite append_nil_r.
  - intros [Hc Ht]%no_space_cons. destruct (no_space_char c Hc) as [_ Hlf].
    simpl. rewrite Hlf, IH by done. by rewrite append_assoc.
Qed.

Lemma split_from_word t rest tok :
  no_space t = true →
  Str.split_from (t +:+ rest) tok = Str.split_from rest (tok +:+ t).
Proof.
  revert tok. induction t as [|c t IH]; intros tok.
  - by rewrite append_nil_r.
  - intros [Hc Ht]%no_space_cons. simpl. rewrite Hc, IH by done. by rewrite append_assoc.
Qed.

Lemma cells_text_cons c row :
  cells_text (c :: row) = Str.str c +:+ String " "%char (cells_text row).
Proof. reflexivity. Qed.

Lemma newlines_cells_text_any row rest :
  Str.universal_newlines (cells_text row +:+ String "010"%char rest)
  = cells_text row +:+ String "010"%char (Str.universal_newlines rest).
Proof.
  induction row as [|c row IH]; [done|].
  rewrite cells_text_cons, !append_assoc. simpl.
  rewrite newlines_word by apply str_word. simpl. by rewrite IH.
Qed.

Lemma lines_from_cells_text_any row rest line :
  Str.lines_from (cells_text row +:+ String "010"%char rest) line
  = (line +:+ cells_text row +:+ String "010"%char EmptyString) :: Str.lines_from rest EmptyString.
Proof.
  revert line. induction row as [|c row IH]; intros line; [done|].
  rewrite cells_text_cons, !append_assoc. simpl.
  rewrite lines_from_word by apply str_word. simpl.
  rewrite IH. by rewrite !append_assoc.
Qed.

Lemma split_from_cells_text_any row :
  Str.split_from (cells_text row +:+ String "010"%char EmptyString) EmptyString
  = map Str.str row.
Proof.
  induction row as [|c row IH]; [done|].
  rewrite cells_text_cons, !append_assoc. simpl.
  rewrite split_from_word by apply str_word. simpl.
  destruct (str_word c) as [Hne _].
  destruct (Str.str c) as [|x s] eqn:Hstr; [done|]. simpl. by rewrite IH.
Qed.

Lemma int_str_row_any row : comprehension Str.int (map Str.str row) = Ok row.
Proof.
  induction row as [|c row IH]; [done|]. simpl. by rewrite int_str, IH.
Qed.

Lemma readlines_rows_text_any g :
  Str.readlines (rows_text g)
  = map (λ row, cells_text row +:+ String "010"%char EmptyString) g.
Proof.
  unfold Str.readlines.
  assert (Hnl : Str.universal_newlines (rows_text g) = rows_text g).
  { induction g as [|row g IH]; [done|].
    change (rows_text (row :: g)) with (cells_text row +:+ String "010"%char (rows_text g)).
    by rewrite newlines_cells_text_any, IH. }
  rewrite Hnl. induction g as [|row g IH]; [done|].
  change (rows_text (row :: g)) with (cells_text row +:+ String "010"%char (rows_text g)).
  rewrite lines_from_cells_text_any. simpl. f_equal. apply IH.
  change (rows_text (row :: g)) with (cells_text row +:+ String "010"%char (rows_text g)) in Hnl.
  rewrite newlines_cells_text_any in Hnl.
  apply (inj (String.append (cells_text row))) in Hnl. by injection Hnl.
Qed.

(** ** Reading any file *)

(** The loop of [read_board] over lines that all hold integers. *)
Lemma read_board_lines st lines rows acc :
  Forall2 (λ line row, comprehension Str.int (Str.split line) = Ok row) lines rows →
  for_acc lines acc (λ line board,
    let split := Str.split line in
    split ← lift (comprehension Str.int split);
    mret (board ++ [split])) st
  = Ok (acc ++ rows, st).
Proof.
  intros Hall. revert acc. induction Hall as [|line row lines rows Hline _ IH]; intros acc.
  - simpl. by rewrite app_nil_r.
  - simpl. erewrite bind_run; last first.
    { erewrite bind_run by (apply lift_run, Hline). reflexivity. }
    rewrite IH. by rewrite <- app_assoc.
Qed.

Lemma int_cases s : (∃ n, Str.int s = Ok n) ∨ Str.int s = Raise ValueError.
Proof.
  unfold Str.int.
  match goal with |- context [match ?p with Some _ => _ | None => _ end] =>
    destruct p; eauto
  end.
Qed.

Lemma comprehension_int_cases l :
  (∃ ns, comprehension Str.int l = Ok ns) ∨ comprehension Str.int l = Raise ValueError.
Proof.
  induction l as [|s l IH]; simpl; [eauto|].
  destruct (int_cases s) as [[n ->] | ->]; [|by right].
  destruct IH as [[ns ->] | ->]; eauto.
Qed.

Lemma comprehension_int_bad l tok :
  tok ∈ l → Str.int tok = Raise ValueError →
  comprehension Str.int l = Raise ValueError.
Proof.
  intros Hin Hbad. induction l as [|s l IH]; [by apply elem_of_nil in Hin|].
  simpl. destruct (int_cases s) as [[n Hs] | ->]; [|done].
  rewrite Hs. apply elem_of_cons in Hin as [->|Hin]; [congruence|].
  by rewrite IH.
Qed.

Lemma read_board_lines_bad st lines acc :
  (∃ line, line ∈ lines ∧ comprehension Str.int (Str.split line) = Raise ValueError) →
  for_acc lines acc (λ line board,
    let split := Str.split line in
    split ← lift (comprehension Str.int split);
    mret (board ++ [split])) st
  = Raise ValueError.
Proof.
  revert acc. induction lines as [|line lines IH]; intros acc (bad & Hin & Hbad).
  - by apply elem_of_nil in Hin.
  - simpl. destruct (comprehension_int_cases (Str.split line)) as [[ns Hns] | Hraise].
    + erewrite bind_run; last first.
      { erewrite bind_run by (apply lift_run, Hns). reflexivity. }
      apply IH. exists bad. split; [|done].
      apply elem_of_cons in Hin as [->|Hin]; [congruence|done].
    + unfold mbind, M_bind, lift. by rewrite Hraise.
Qed.

(** [read_board] on lines of integers that make a rectangle. *)
Lemma read_board_rows_any
    (st : world) (filename text : string) (rows : list (list Z)) (h w : nat) :
  files st !! filename = Some text →
  Forall2 (λ line row, comprehension Str.int (Str.split line) = Ok row)
          (Str.readlines text) rows →
  shape rows h w →
  read_board filename st = Ok (length (arrays st), set_arrays (arrays st ++ [rows]) st).
Proof.
  intros Hfile Hall Hshape. unfold read_board.
  erewrite bind_run by (unfold file_readlines; rewrite Hfile; reflexivity).
  erewrite bind_run by by apply read_board_lines.
  simpl. by erewrite bind_run by (apply lift_run; by eapply array_shape).
Qed.



(** X14.  [read_board] raises [ValueError] when some word of the file is
    not an integer for [int], whatever the rest of the file holds. *)
Theorem read_board_bad_word (st : world) (filename text line tok : string) :
  files st !! filename = Some text →
  line ∈ Str.readlines text → tok ∈ Str.split line → Str.int tok = Raise ValueError →
  read_board filename st = Raise ValueError.
Proof.
  intros Hfile Hline Htok Hbad. unfold read_board.
  erewrite bind_run by (unfold file_readlines; rewrite Hfile; reflexivity).
  unfold mbind at 1. unfold M_bind.
  rewrite read_board_lines_bad; [done|].
  exists line. split; [done|]. by eapply comprehension_int_bad.
Qed.

Lemma read_board_bad_word_witness :
  read_board "b.txt" (file_world "b.txt" ("0 1" +:+ String "010"%char "1 x"))
  = Raise ValueError.
Proof.
  apply (read_board_bad_word (file_world "b.txt" ("0 1" +:+ String "010"%char "1 x"))
           "b.txt" ("0 1" +:+ String "010"%char "1 x") "1 x" "x");
    [reflexivity | | | reflexivity].
  - apply list_elem_of_In. simpl. auto.
  - apply list_elem_of_In. simpl. auto.
Defined.

(** X15.  [read_board] raises [ValueError] when the lines hold integers but
    not all the same number of them; an empty line among lines with
    integers is such a case. *)
Theorem read_board_ragged
    (st : world) (filename text : string) (row : list Z) (rows : list (list Z))
    (other : list Z) :
  files st !! filename = Some text →
  Forall2 (λ line row, comprehension Str.int (Str.split line) = Ok row)
          (Str.readlines text) (row :: rows) →
  other ∈ rows → length other ≠ length row →
  read_board filename st = Raise ValueError.
Proof.
  intros Hfile Hall Hother Hlen. unfold read_board.
  erewrite bind_run by (unfold file_readlines; rewrite Hfile; reflexivity).
  erewrite bind_run by by apply read_board_lines.
  simpl app. unfold mbind, M_bind, lift, array.
  replace (forallb _ rows) with false; [done|]. symmetry.
  apply not_true_is_false. intros Hforall.
  rewrite forallb_forall in Hforall.
  apply list_elem_of_In in Hother. specialize (Hforall other Hother).
  by apply Nat.eqb_eq in Hforall.
Qed.

Lemma read_board_ragged_witness :
  read_board "b.txt"
    (file_world "b.txt" ("0 1" +:+ String "010"%char (String "010"%char "1 1")))
  = Raise ValueError.
Proof.
  apply (read_board_ragged
           (file_world "b.txt" ("0 1" +:+ String "010"%char (String "010"%char "1 1")))
           "b.txt" ("0 1" +:+ String "010"%char (String "010"%char "1 1"))
           [0; 1] [[]; [1; 1]] []);
    [reflexivity | repeat constructor | | simpl; lia].
  apply list_elem_of_In. simpl. auto.
Defined.

(** ** Writing, and writing then reading *)

(** X16.  [save_board] writes the rows in order, in each row every cell as
    its decimal number followed by one space, and a newline after each row;
    it replaces the file of that name and changes no other file, no array
    and nothing of the object. *)
Theorem save_board_writes
    (st : world) (l : loc) (g : ndarray) (h w : nat) (filename : string) :
  arrays st !! l = Some g → shape g h w →
  ∃ st', save_board l filename st = Ok (tt, st') ∧
         files st' !! filename = Some (rows_text g) ∧
         (∀ other, other ≠ filename → files st' !! other = files st !! other) ∧
         arrays st' = arrays st ∧ self st' = self st ∧
         entropy st' = entropy st ∧ drawn st' = drawn st.
Proof.
  intros Hl Hshape. eexists. split; [by eapply save_board_run|]. simpl.
  split; [apply lookup_insert_eq|]. split; [|done].
  intros other Hother. by apply lookup_insert_ne.
Qed.

Lemma save_board_writes_witness :
  ∃ st', save_board 0%nat "out.txt" (world_of blinker5) = Ok (tt, st') ∧
         files st' !! "out.txt" = Some (rows_text blinker5) ∧
         (∀ other, other ≠ "out.txt" →
            files st' !! other = files (world_of blinker5) !! other) ∧
         arrays st' = arrays (world_of blinker5) ∧ self st' = self (world_of blinker5) ∧
         entropy st' = entropy (world_of blinker5) ∧ drawn st' = drawn (world_of blinker5).
Proof.
  apply (save_board_writes (world_of blinker5) 0%nat blinker5 5 5 "out.txt");
    [reflexivity | exact blinker5_shape].
Defined.

Lemma parse_cells_text row :
  comprehension Str.int (Str.split (cells_text row +:+ String "010"%char EmptyString))
  = Ok row.
Proof.
  unfold Str.split. by rewrite split_from_cells_text_any, int_str_row_any.
Qed.

(** X17.  The round trip holds beyond 0 and 1: any rectangular grid with
    at least one cell, of integers within a 64-bit integer, negative ones
    included, written by [save_board] and read back by [read_board], comes
    back the same, in a new array.  [read_board] checks no cell for being 0
    or 1. *)
Theorem save_then_read_any_integers
    (st : world) (l : loc) (g : ndarray) (h w : nat) (filename : string) :
  arrays st !! l = Some g → shape g h w → (1 ≤ h)%nat → (1 ≤ w)%nat →
  Forall (Forall (λ n, - 2 ^ 63 <= n < 2 ^ 63)) g →
  ∃ st1 st2 l', save_board l filename st = Ok (tt, st1) ∧
                read_board filename st1 = Ok (l', st2) ∧
                l' ≠ l ∧ arrays st2 !! l' = Some g ∧ arrays st2 !! l = Some g.
Proof.
  intros Hl Hshape _ _ _. pose proof (lookup_lt_Some _ _ _ Hl) as Hlt.
  eexists. eexists. eexists. split; [by eapply save_board_run|]. split.
  - apply (read_board_rows_any _ filename (rows_text g) g h w);
      [apply lookup_insert_eq| |done].
    rewrite readlines_rows_text_any. apply Forall2_fmap_l, Forall_Forall2_diag.
    apply Forall_forall. intros row _. apply parse_cells_text.
  - simpl. split; [lia|]. split.
    + rewrite lookup_app_r by lia. by rewrite Nat.sub_diag.
    + by rewrite lookup_app_l.
Qed.

Lemma save_then_read_any_integers_witness :
  ∃ st1 st2 l', save_board 0%nat "out.txt" (world_of [[-12; 0; 305]; [7; 1; -1]])
                  = Ok (tt, st1) ∧
                read_board "out.txt" st1 = Ok (l', st2) ∧
                l' ≠ 0%nat ∧
                arrays st2 !! l' = Some [[-12; 0; 305]; [7; 1; -1]] ∧
                arrays st2 !! 0%nat = Some [[-12; 0; 305]; [7; 1; -1]].
Proof.
  apply (save_then_read_any_integers (world_of [[-12; 0; 305]; [7; 1; -1]]) 0%nat
           [[-12; 0; 305]; [7; 1; -1]] 2 3 "out.txt");
    [reflexivity | split; [reflexivity | repeat constructor] | lia | lia
    | repeat (apply Forall_cons_2 || apply Forall_nil_2); lia].
Defined.

(** ** The frames of the animation *)

Lemma animate_delay_loop st (first : loc) (h : list loc) (d : nat) :
  history (self st) = first :: h →
  for_in (range (Z.of_nat d)) (λ _,
    h ← get_animation;
    first ← lift (list_getitem h 0);
    set_history ([first] ++ h)) st
  = Ok (tt, set_self (mkGameBoard (replicate d first ++ first :: h)
                        (board (self st)) (initial_board (self st))) st).
Proof.
  intros Hhist.
  match goal with |- for_in ?l ?body ?s0 = _ =>
    destruct (for_in_inv (λ k s, s = set_self (mkGameBoard
                 (replicate k first ++ first :: h)
                 (board (self st)) (initial_board (self st))) st) body l)
      with (st := s0) as (s & Hrun & Hs)
  end.
  - intros k a s _ ->. eexists. split; [|reflexivity].
    unfold get_animation, gets, set_history, modify, mbind, M_bind, lift, list_getitem.
    simpl. destruct (replicate k first ++ first :: h) as [|f rest] eqn:Hrep.
    + by destruct k.
    + assert (f = first) as -> by (destruct k; simpl in Hrep; congruence).
      rewrite index_in_range by (simpl; lia). simpl. reflexivity.
  - simpl. destruct st as [? ? ? ? []]. simpl in *. by subst.
  - rewrite Hrun. subst s. by rewrite range_length, Nat2Z.id.
Qed.

(** X18.  With at least one frame in the history, [animate] with a start
    delay of [d >= 0] puts [d] more references to the first frame in front
    of the history, for good, and hands [d] frames more to matplotlib; it
    copies no array.  A start delay of [None], 0 or below changes
    nothing. *)
Theorem animate_start_delay (st : world) (first : loc) (h : list loc) (d : Z) :
  history (self st) = first :: h →
  animate_frames None st = Ok (len_list (first :: h), st) ∧
  ∃ st', animate_frames (Some d) st
           = Ok (len_list (first :: h) + Z.max d 0, st') ∧
         history (self st') = replicate (Z.to_nat d) first ++ first :: h ∧
         arrays st' = arrays st ∧ board (self st') = board (self st) ∧
         initial_board (self st') = initial_board (self st).
Proof.
  intros Hhist. split.
  - unfold animate_frames, get_animation, gets, mbind, M_bind, mret, M_ret.
    by rewrite Hhist.
  - eexists. split.
    + unfold animate_frames.
      erewrite bind_run; last first.
      { replace (range d) with (range (Z.of_nat (Z.to_nat d))).
        - by apply animate_delay_loop.
        - unfold range. destruct (Z.le_gt_cases 0 d); [by rewrite Z2Nat.id|].
          rewrite Z2Nat.nonpos by lia. unfold seqZ.
          by rewrite (Z2Nat.nonpos d) by lia. }
      unfold get_animation, gets, mbind, M_bind, mret, M_ret. simpl.
      do 2 f_equal. unfold len_list. rewrite length_app, length_replicate. simpl. lia.
    + done.
Qed.

Lemma animate_start_delay_witness :
  animate_frames None (mkWorld [blinker5] ∅ (λ _, 0) 0%nat (mkGameBoard [0%nat] 0%nat 0%nat))
    = Ok (len_list [0%nat],
          mkWorld [blinker5] ∅ (λ _, 0) 0%nat (mkGameBoard [0%nat] 0%nat 0%nat)) ∧
  ∃ st', animate_frames (Some 3)
           (mkWorld [blinker5] ∅ (λ _, 0) 0%nat (mkGameBoard [0%nat] 0%nat 0%nat))
           = Ok (len_list [0%nat] + Z.max 3 0, st') ∧
         history (self st') = replicate (Z.to_nat 3) 0%nat ++ [0%nat] ∧
         arrays st' = [blinker5] ∧ board (self st') = 0%nat ∧
         initial_board (self st') = 0%nat.
Proof.
  apply (animate_start_delay
           (mkWorld [blinker5] ∅ (λ _, 0) 0%nat (mkGameBoard [0%nat] 0%nat 0%nat))
           0%nat [] 3).
  reflexivity.
Defined.

(** X19.  Before the first tick the history is empty, and [animate] with a
    start delay of one frame or more raises [IndexError] on
    [self.history[0]]. *)
Theorem animate_without_frames (st : world) (d : Z) :
  history (self st) = [] → 1 <= d →
  animate_frames (Some d) st = Raise IndexError.
Proof.
  intros Hhist Hd. unfold animate_frames, range.
  rewrite seqZ_cons by lia. simpl.
  unfold get_animation, gets, mbind, M_bind, lift. by rewrite Hhist.
Qed.

Lemma animate_without_frames_witness :
  animate_frames (Some 1) fresh_blinker5 = Raise IndexError.
Proof. apply (animate_without_frames fresh_blinker5 1); [reflexivity | lia]. Defined.
